(** * validate-links: hyperlink validation of .docx / .pptx packages

    A shallow embedding of [validate.go] and the properties of its
    pipeline: directory walk, link extraction from the relationship
    manifest, link filter, reachability probe and report aggregation. *)

From Stdlib Require Import ZArith Lia Ascii String.
From stdpp Require Import base option list strings gmap.

Local Open Scope string_scope.
Local Open Scope list_scope.

(** ** Strings

    A Go string is a sequence of bytes: it is modelled by [string], one
    [ascii] per byte. *)

Module Str.

Fixpoint prefix (p s : string) : bool :=
  match p, s with
  | EmptyString, _ => true
  | String a p', String b s' => if Ascii.eqb a b then prefix p' s' else false
  | String _ _, EmptyString => false
  end.

Fixpoint drop (n : nat) (s : string) : string :=
  match n, s with
  | O, _ => s
  | S n', String _ s' => drop n' s'
  | S _, EmptyString => EmptyString
  end.

Fixpoint take (n : nat) (s : string) : string :=
  match n, s with
  | O, _ => EmptyString
  | S n', String c s' => String c (take n' s')
  | S _, EmptyString => EmptyString
  end.

(** [strings.Contains]-style test: [p] occurs somewhere in [s]. *)
Fixpoint contains (p s : string) : bool :=
  prefix p s ||
  match s with
  | EmptyString => false
  | String _ s' => contains p s'
  end.

Definition snoc (s : string) (c : ascii) : string := s +:+ String c EmptyString.

End Str.

(** ** Characters of a string

    Go's matcher reads its input one UTF-8 encoded character at a time
    ([utf8.DecodeRuneInString]); a byte that does not begin a well-formed
    encoding counts as a character of its own. *)

Module utf8.

Definition byte (c : ascii) : N := N_of_ascii c.

Definition between (lo hi : N) (c : ascii) : bool :=
  (lo <=? byte c)%N && (byte c <=? hi)%N.

(** A continuation byte, 0x80 to 0xBF. *)
Definition continuation (c : ascii) : bool := between 128 191 c.

(** The number of bytes the first byte of a character announces: 1 for
    ASCII and for bytes that begin no character. *)
Definition size (c : ascii) : nat :=
  if (byte c <? 194)%N then 1          (* 00..7F ASCII, 80..C1 invalid *)
  else if (byte c <? 224)%N then 2     (* C2..DF *)
  else if (byte c <? 240)%N then 3     (* E0..EF *)
  else if (byte c <? 245)%N then 4     (* F0..F4 *)
  else 1.                              (* F5..FF invalid *)

(** The second byte [d] is one that may follow the first byte [c]. *)
Definition second (c d : ascii) : bool :=
  if (byte c =? 224)%N then between 160 191 d        (* E0: A0..BF *)
  else if (byte c =? 237)%N then between 128 159 d   (* ED: 80..9F *)
  else if (byte c =? 240)%N then between 144 191 d   (* F0: 90..BF *)
  else if (byte c =? 244)%N then between 128 143 d   (* F4: 80..8F *)
  else continuation d.

(** The number of bytes of [rest] that belong to the character begun by
    the byte [c]: the width of the character less one. *)
Definition trail (c : ascii) (rest : string) : nat :=
  match size c, rest with
  | 2, String d _ => if second c d then 1 else 0
  | 3, String d (String e _) => if second c d && continuation e then 2 else 0
  | 4, String d (String e (String f _)) =>
      if second c d && continuation e && continuation f then 3 else 0
  | _, _ => 0
  end.

(** The first [k] bytes of [s] are continuation bytes. *)
Fixpoint continuations (k : nat) (s : string) : bool :=
  match k, s with
  | O, _ => true
  | S k', String c s' => continuation c && continuations k' s'
  | S _, EmptyString => false
  end.

End utf8.

(** ** The fragment of Go's [regexp] package used by the program

    The five patterns of [initializeMatchers] are built from literal
    characters, [.], [.*] and one named group [(?P<url>.+?)].  A compiled
    pattern is the list of its instructions.  Matching is leftmost-first
    (the preference order of a backtracking matcher): [.*] tries the
    longest run first, [.+?] the shortest.  As in Go, [.] matches one
    character, of one to four bytes, and does not match a line feed.
    Where a function walks over the input byte by byte, its argument
    [skip] counts the bytes still to pass before the next character
    begins. *)

Module regexp.

Inductive Inst : Type :=
| Lit (c : ascii)            (* a literal character *)
| AnyChar                    (* .   *)
| AnyStar                    (* .*  *)
| LazyGroup (name : string). (* (?P<name>.+?) *)

Abbreviation Regexp := (list Inst).

Definition line_feed : ascii := Ascii.ascii_of_nat 10.
Definition is_lf (c : ascii) : bool := Ascii.eqb c line_feed.

(** Parsing of a pattern, by cases on what it starts with. *)
Fixpoint parse (fuel : nat) (p : string) : Regexp :=
  match fuel with
  | O => []
  | S fuel' =>
      if Str.prefix "(?P<url>.+?)" p
      then LazyGroup "url" :: parse fuel' (Str.drop 12 p)
      else if Str.prefix ".*" p
      then AnyStar :: parse fuel' (Str.drop 2 p)
      else match p with
           | EmptyString => []
           | String c p' =>
               (if Ascii.eqb c "."%char then AnyChar else Lit c) :: parse fuel' p'
           end
  end.

Definition MustCompile (p : string) : Regexp := parse (String.length p) p.

Definition Match : Type := (list string * string)%type.

(** [.*] in front of the continuation [k]: the longest run first. *)
Fixpoint star (k : string -> option Match) (skip : nat) (s : string) : option Match :=
  match s with
  | String d s' =>
      match skip with
      | S skip' => star k skip' s'
      | O =>
          if is_lf d then k s
          else match star k (utf8.trail d s') s' with
               | Some r => Some r
               | None => k s
               end
      end
  | EmptyString =>
      match skip with
      | S _ => None
      | O => k s
      end
  end.

(** The tail of [(.+?)] in front of [k], [acc] being what the group
    holds so far: the shortest run first. *)
Fixpoint lazy (k : string -> option Match) (skip : nat) (acc s : string) : option Match :=
  match skip with
  | S skip' =>
      match s with
      | String e s' => lazy k skip' (Str.snoc acc e) s'
      | EmptyString => None
      end
  | O =>
      match k s with
      | Some (caps, rest) => Some (acc :: caps, rest)
      | None =>
          match s with
          | String e s' =>
              if is_lf e then None else lazy k (utf8.trail e s') (Str.snoc acc e) s'
          | EmptyString => None
          end
      end
  end.

(** [exec re s]: the preferred match of [re] anchored at the start of
    [s]; returns the captured groups and the unread rest of [s]. *)
Fixpoint exec (re : Regexp) (s : string) : option Match :=
  match re with
  | [] => Some ([], s)
  | Lit c :: re' =>
      match s with
      | String d s' => if Ascii.eqb c d then exec re' s' else None
      | EmptyString => None
      end
  | AnyChar :: re' =>
      match s with
      | String d s' =>
          if is_lf d then None else exec re' (Str.drop (utf8.trail d s') s')
      | EmptyString => None
      end
  | AnyStar :: re' => star (exec re') 0 s
  | LazyGroup _ :: re' =>
      match s with
      | String d s' =>
          if is_lf d then None
          else lazy (exec re') (utf8.trail d s') (String d EmptyString) s'
      | EmptyString => None
      end
  end.

(** The unanchored search: [re] is tried where a character begins. *)
Fixpoint search (re : Regexp) (skip : nat) (s : string) : bool :=
  match skip with
  | S skip' =>
      match s with
      | String _ s' => search re skip' s'
      | EmptyString => false
      end
  | O =>
      match exec re s with
      | Some _ => true
      | None =>
          match s with
          | String d s' => search re (utf8.trail d s') s'
          | EmptyString => false
          end
      end
  end.

(** [re.MatchString(s)]: [re] matches somewhere in [s]. *)
Definition MatchString (re : Regexp) (s : string) : bool := search re 0 s.

(** [re.FindAllStringSubmatch(s, -1)]: the successive leftmost matches,
    each as the whole match followed by its groups; the search resumes
    where the previous match ended (one character further after an
    empty match). *)
Fixpoint find_all (fuel : nat) (re : Regexp) (skip : nat) (s : string)
  : list (list string) :=
  match fuel with
  | O => []
  | S fuel' =>
      match skip with
      | S skip' =>
          match s with
          | String _ s' => find_all fuel' re skip' s'
          | EmptyString => []
          end
      | O =>
          match exec re s with
          | Some (caps, rest) =>
              let n := String.length s - String.length rest in
              (Str.take n s :: caps) ::
              match n, s with
              | O, String d s' => find_all fuel' re (utf8.trail d s') s'
              | O, EmptyString => []
              | S _, _ => find_all fuel' re 0 rest
              end
          | None =>
              match s with
              | String d s' => find_all fuel' re (utf8.trail d s') s'
              | EmptyString => []
              end
          end
      end
  end.

Definition FindAllStringSubmatch (re : Regexp) (s : string) : list (list string) :=
  find_all (S (String.length s)) re 0 s.

End regexp.

(** ** Data model *)

(* define a custom hyperlink structure *)
Record Hyperlink : Type := mkHyperlink {
  Url : string;
  IsWorking : bool
}.

(* define a custom document structure *)
Record Document : Type := mkDocument {
  Path : string;
  Type_ : string;
  IsValid : bool;
  Hyperlinks : list Hyperlink
}.

(* define a custom report structure *)
Record Report : Type := mkReport {
  ResultOfValidation : bool;
  Directories : list string;
  Documents : list Document;
  InvalidHyperlinks : list Hyperlink;
  Date : string
}.

(** ** The outside world

    The collaborators the program calls into: the directory walk, the
    zip reader, the HTTP client and the clock. *)

(** [time.Duration] counts nanoseconds. *)
Definition Millisecond : Z := 1000000.
Definition Second : Z := 1000 * Millisecond.

(** The fields of [goreq.Request] the program sets. *)
Record Request : Type := mkRequest {
  Uri : string;
  Timeout : Z
}.

(** One entry of a zip archive: [content = None] when [file.Open()]
    returns an error. *)
Record zipFile : Type := mkZipFile {
  Name : string;
  content : option string
}.

(** [zip.ReadCloser]: the archive directory. *)
Record ReadCloser : Type := mkReadCloser {
  File : list zipFile
}.

(** One invocation of the [filepath.Walk] callback.  [fileInfo] is [None]
    for a nil [os.FileInfo] (Walk passes nil when [Lstat] of the entry
    failed); [err] is [None] for a nil error. *)
Record WalkCall : Type := mkWalkCall {
  path : string;
  fileInfo : option string;   (* the entry's [Name()] *)
  err : option string
}.

Record Env : Type := mkEnv {
  (** the callback invocations [filepath.Walk] makes for a root, in order *)
  filepath_Walk : string -> list WalkCall;
  (** [zip.OpenReader]: [None] when the file cannot be opened as a zip *)
  zip_OpenReader : string -> option ReadCloser;
  (** [goreq.Request.Do]: the error of the fetch, [None] for nil *)
  goreq_Do : Request -> option string;
  (** [time.Now().String()] *)
  time_Now : string
}.

(** What a run leaves behind: the lines written by [log.Println], the
    lines written by [fmt.Println], and the requests issued. *)
Record World : Type := mkWorld {
  logged : list string;
  printed : list string;
  requested : list Request
}.

Definition start : World := mkWorld [] [] [].

(** ** Computations that may panic

    A Go call either returns or panics; a panic in any goroutine ends the
    process, so it propagates through every caller. *)

Inductive outcome (A : Type) : Type :=
| Returned (a : A)
| Panicked (msg : string).
Arguments Returned {A} a.
Arguments Panicked {A} msg.

Definition Run (A : Type) : Type := World -> outcome A * World.

Definition ret {A} (a : A) : Run A := fun w => (Returned a, w).

Definition bind {A B} (m : Run A) (k : A -> Run B) : Run B :=
  fun w =>
    match m w with
    | (Returned a, w') => k a w'
    | (Panicked msg, w') => (Panicked msg, w')
    end.

Declare Scope run_scope.
Delimit Scope run_scope with run.
Notation "x <- m ;; k" := (bind m (fun x => k))
  (at level 100, m at next level, right associativity) : run_scope.
Notation "m ;; k" := (bind m (fun _ => k))
  (at level 100, right associativity) : run_scope.
Local Open Scope run_scope.

Definition panic {A} (msg : string) : Run A := fun w => (Panicked msg, w).

Definition log_Println (line : string) : Run unit :=
  fun w => (Returned tt, mkWorld (logged w ++ [line]) (printed w) (requested w)).

Definition fmt_Println (line : string) : Run unit :=
  fun w => (Returned tt, mkWorld (logged w) (printed w ++ [line]) (requested w)).

Definition nil_dereference : string :=
  "runtime error: invalid memory address or nil pointer dereference".

(** Use of a pointer or interface value that may be nil. *)
Definition deref {A} (p : option A) : Run A :=
  match p with
  | Some a => ret a
  | None => panic nil_dereference
  end.

Definition when (c : bool) (m : Run unit) : Run unit :=
  if c then m else ret tt.

(** A [for _, x := range xs] loop whose body yields one value per element. *)
Fixpoint for_each {A B} (body : A -> Run B) (xs : list A) : Run (list B) :=
  match xs with
  | [] => ret []
  | x :: xs' =>
      y <- body x ;;
      ys <- for_each body xs' ;;
      ret (y :: ys)
  end.

(** ** The pattern matchers *)

(** The double quote, as a character and as a string. *)
Definition quote : ascii := Ascii.ascii_of_nat 34.
Definition dq : string := String quote EmptyString.

Definition hyperlink_pattern : string :=
  "Type=" +:+ dq +:+
  "http://schemas.openxmlformats.org/officeDocument/2006/relationships/hyperlink"
  +:+ dq +:+ " Target=" +:+ dq +:+ "(?P<url>.+?)" +:+ dq.

(* initialize our regular expresssions *)
Definition initializeMatchers : gmap string regexp.Regexp :=
  <["mailto" := regexp.MustCompile "mailto:.*"]>
  (<["microsoft" := regexp.MustCompile "http://office.microsoft.com"]>
  (<["hyperlink" := regexp.MustCompile hyperlink_pattern]>
  (<[".pptx" := regexp.MustCompile "ppt/slides/_rels/.*.xml.rels"]>
  (<[".docx" := regexp.MustCompile "word/_rels/document.xml.rels"]> ∅)))).

(** The global [matchers], as every function finds it: [main] calls
    [initializeMatchers] before anything else. *)
Definition matchers : gmap string regexp.Regexp := initializeMatchers.

(** The character [c] occurs in [s]. *)
Fixpoint has_char (c : ascii) (s : string) : bool :=
  match s with
  | EmptyString => false
  | String d s' => Ascii.eqb c d || has_char c s'
  end.

(** [filepath.Ext]: the suffix of the last path element that starts at
    its final dot, empty when there is none. *)
Fixpoint filepath_Ext (p : string) : string :=
  match p with
  | EmptyString => EmptyString
  | String c r =>
      if has_char "/" r || has_char "." r then filepath_Ext r
      else if Ascii.eqb c "." then p else EmptyString
  end.

(** ** Link filter *)

Definition filterHyperlinks (hyperlinks : list Hyperlink) : list Hyperlink :=
  (* initialize an empty slice; check all links *)
  fold_left
    (fun filteredLinks link =>
       (* exclude any microsoft links *)
       let isMicrosoft := regexp.MatchString (matchers !!! "microsoft") (Url link) in
       let isEmpty := String.eqb (Url link) EmptyString in
       let isMail := regexp.MatchString (matchers !!! "mailto") (Url link) in
       (* include only non microsoft links *)
       if negb isMicrosoft && negb isEmpty && negb isMail
       then filteredLinks ++ [link]
       else filteredLinks)
    hyperlinks [].

(** ** Link extraction from the manifest content *)

Definition extractHyperlinksFromContent (fileContent : string) : list Hyperlink :=
  (* find all matching links (the url is matched by a capture group) *)
  let matches := regexp.FindAllStringSubmatch (matchers !!! "hyperlink") fileContent in
  (* the Submatch function returns the full match as first element and
     our capture group as second *)
  let links := map (fun match_ : list string => mkHyperlink (match_ !!! 1%nat) false) matches in
  (* now filter out all microsoft links *)
  filterHyperlinks links.

(** A loop over a slice that threads an accumulator. *)
Fixpoint for_fold {A S} (body : S -> A -> Run S) (xs : list A) (s : S) : Run S :=
  match xs with
  | [] => ret s
  | x :: xs' => s' <- body s x ;; for_fold body xs' s'
  end.

Section Program.

Variable env : Env.

(** *** Reachability probe *)

Definition Do (request : Request) : Run (option string) :=
  fun w =>
    (Returned (goreq_Do env request),
     mkWorld (logged w) (printed w) (requested w ++ [request])).

Definition validate (link : Hyperlink) : Run Hyperlink :=
  (* issue a GET request to the specified url and wait for response *)
  err <- Do (mkRequest (Url link) (15000 * Millisecond)) ;;
  if bool_decide (err ≠ None)
  then (* link was not found *) ret (mkHyperlink (Url link) false)
  else (* link was found *) ret (mkHyperlink (Url link) true).

(** *** Reading the manifest out of the archive *)

Definition getLinkFileContent (document : Document) : Run string :=
  (* open the docx file with our zip module *)
  let documentContainer := zip_OpenReader env (Path document) in
  when (bool_decide (documentContainer = None))
       (log_Println "ERROR: could not open the file") ;;
  (* go through all content files: [documentContainer.File] *)
  container <- deref documentContainer ;;
  for_fold
    (fun buffer file =>
       matcher <- deref (matchers !! Type_ document) ;;
       (* links are stored in a special file *)
       if regexp.MatchString matcher (Name file)
       then
         (* open the file for reading *)
         let fileContentReader := content file in
         let err := bool_decide (fileContentReader = None) in
         when err (log_Println "ERROR: coult not read file content") ;;
         (* [defer fileContentReader.Close()] and [io.Copy] use the reader *)
         data <- deref fileContentReader ;;
         (* copy content of the file to our content buffer *)
         let buffer := buffer +:+ data in
         when err (log_Println "could not write file contents to console") ;;
         ret buffer
       else ret buffer)
    (File container) EmptyString.

Definition extractHyperlinksFromDocument (document : Document) : Run (list Hyperlink) :=
  (* get the content of the file containing the links *)
  content <- getLinkFileContent document ;;
  (* find all hyperlinks in the document *)
  ret (extractHyperlinksFromContent content).

(** *** Checking one document

    Every link is probed by a goroutine of its own, which writes only
    its own slice element; the wait group is released after the last of
    them.  The document read afterwards is that of probing the links one
    by one.  The probes of a document may run in any order; the loop
    below takes them in the order of the links, which is one of the
    schedules, so the order of the requests within a document carries no
    meaning. *)
Definition extractAndCheckHyperlinks (file : Document) : Run Document :=
  (* get all hyperlinks from the document *)
  hyperlinks <- extractHyperlinksFromDocument file ;;
  (* check all hyperlinks *)
  checked <- for_each
               (fun link =>
                  fmt_Println ("-- checking link: " +:+ Url link) ;;
                  validate link)
               hyperlinks ;;
  ret (mkDocument (Path file) (Type_ file) (IsValid file) checked).

(** *** Directory walk *)

(** The callback given to [filepath.Walk]: the documents it sends on
    [fileChannel], and the error it returns to Walk. *)
Definition walkFn (call : WalkCall) : Run (list Document * option string) :=
  fileName <- deref (fileInfo call) ;;
  let extension := filepath_Ext fileName in
  let sent :=
    if String.eqb extension ".docx" || String.eqb extension ".pptx"
    then [mkDocument (path call) (filepath_Ext fileName) false []]
    else [] in
  (* we are not expecting any errors (or not handling them at least) *)
  ret (sent, None).

(** [filepath.Walk] goes to the next entry as long as the callback
    returns nil. *)
Fixpoint Walk (calls : list WalkCall) : Run (list Document) :=
  match calls with
  | [] => ret []
  | call :: calls' =>
      r <- walkFn call ;;
      match r.2 with
      | None => rest <- Walk calls' ;; ret (r.1 ++ rest)
      | Some _ => ret r.1
      end
  end.

Definition walkDirectory (directory : string) : Run (list Document) :=
  Walk (filepath_Walk env directory).

(** The walk sends each document on an unbuffered channel and the loop
    below finishes a document before it receives the next one, so the
    documents are checked one after the other, in the order of the walk.
    The walk runs in a goroutine of its own, one entry ahead of the
    checks at most; here it is taken to its end first, which gives the
    same documents and the same world whenever the function returns. *)
Definition getAndCheckFilesInDirectory (rootDirectory : string) : Run (list Document) :=
  (* walk recursively through our directory *)
  files <- walkDirectory rootDirectory ;;
  (* for each file we find, we get all links and validate them *)
  documents <- for_each extractAndCheckHyperlinks files ;;
  fmt_Println "we are done with these files" ;;
  ret documents.

(** *** Aggregation *)

(** The inner loop of [main] over the links of one document. *)
Definition check_links (links : list Hyperlink) (isValid resultOfValidation : bool)
  : bool * bool :=
  fold_left
    (fun st link =>
       if bool_decide (IsWorking link = false) then (false, false) else st)
    links (isValid, resultOfValidation).

(** The outer loop of [main]. *)
Fixpoint check_documents (documents : list Document) (resultOfValidation : bool)
  : list Document * bool :=
  match documents with
  | [] => ([], resultOfValidation)
  | document :: rest =>
      (* initialize document validity with true *)
      let st := check_links (Hyperlinks document) true resultOfValidation in
      let r := check_documents rest st.2 in
      (mkDocument (Path document) (Type_ document) st.1 (Hyperlinks document) :: r.1,
       r.2)
  end.

(** [main], up to the report it hands to [report.create]; rendering the
    report and opening it in the viewer only read that value. *)
Definition main : Run Report :=
  fmt_Println "Checking documents. Please wait .." ;;
  (* we are only interested in the current directory *)
  let directories := ["."] in
  (* get current date and time *)
  let currentTime := Str.take 19 (time_Now env) in
  (* get a list of all files in the directories specified *)
  documents <- getAndCheckFilesInDirectory "." ;;
  let r := check_documents documents true in
  let resultOfValidation := if negb (Bool.eqb r.2 false) then true else r.2 in
  (* initialize our report structure *)
  ret (mkReport resultOfValidation directories r.1 [] currentTime).

End Program.

(** ** Reference notions the properties are stated with *)

(** [p] read as a pattern without operators other than [.]: it matches
    at the start of [s] position by position, a [.] standing for any one
    character other than a line feed; [wild_strip] gives what follows the
    match in [s]. *)
Fixpoint wild_strip (p s : string) : option string :=
  match p with
  | EmptyString => Some s
  | String a p' =>
      match s with
      | String b s' =>
          if Ascii.eqb a "."
          then if regexp.is_lf b then None
               else wild_strip p' (Str.drop (utf8.trail b s') s')
          else if Ascii.eqb a b then wild_strip p' s' else None
      | EmptyString => None
      end
  end.

Definition wild_prefix (p s : string) : bool :=
  match wild_strip p s with
  | Some _ => true
  | None => false
  end.

(** ... and matches somewhere in [s]. *)
Fixpoint wild_contains (p s : string) : bool :=
  wild_prefix p s ||
  match s with
  | EmptyString => false
  | String _ s' => wild_contains p s'
  end.

(** The compiled form of such a pattern. *)
Fixpoint literal (p : string) : regexp.Regexp :=
  match p with
  | EmptyString => []
  | String c p' =>
      (if Ascii.eqb c "." then regexp.AnyChar else regexp.Lit c) :: literal p'
  end.

(** The URLs the filter leaves out. *)
Definition dropped (url : string) : bool :=
  String.eqb url EmptyString
  || wild_contains "http://office.microsoft.com" url
  || Str.contains "mailto:" url.

(** The test of the filter's loop body, on the URL. *)
Definition keep (link : Hyperlink) : bool := negb (dropped (Url link)).

(** The fixed part of a hyperlink relationship record, up to the opening
    quote of its target, and the record for a given target. *)
Definition record_prefix : string :=
  "Type=" +:+ dq +:+
  "http://schemas.openxmlformats.org/officeDocument/2006/relationships/hyperlink"
  +:+ dq +:+ " Target=" +:+ dq.

Definition hyperlink_record (target : string) : string :=
  record_prefix +:+ target +:+ dq.

(** A relationship manifest seen as its hyperlink records in document
    order, each with the text that precedes it, and the text after the
    last one. *)
Record Manifest : Type := mkManifest {
  records : list (string * string);   (* text before the record, target *)
  trailer : string
}.

Fixpoint render_records (rs : list (string * string)) (trailer : string) : string :=
  match rs with
  | [] => trailer
  | (text, target) :: rs' =>
      text +:+ hyperlink_record target +:+ render_records rs' trailer
  end.

Definition render (m : Manifest) : string := render_records (records m) (trailer m).

Definition targets (m : Manifest) : list string := map snd (records m).

(** A target the pattern captures whole: not empty, without double quote
    and without line feed. *)
Definition plain_target (target : string) : bool :=
  negb (String.eqb target EmptyString)
  && negb (has_char quote target)
  && negb (has_char regexp.line_feed target).

(** The text around the records holds no match of the record's fixed part. *)
Definition well_formed (m : Manifest) : Prop :=
  Forall (fun r => wild_contains record_prefix r.1 = false /\ plain_target r.2 = true)
         (records m)
  /\ wild_contains record_prefix (trailer m) = false.

(** The pattern [p] does not overlap itself: no proper suffix of it, read
    as a pattern, matches the start of [p]. *)
Definition unbordered (p : string) : bool :=
  forallb (fun k => negb (wild_prefix (Str.drop k p) p)) (seq 1 (String.length p - 1)).

(** Every byte of [s] is a character of its own. *)
Fixpoint single_bytes (s : string) : bool :=
  match s with
  | EmptyString => true
  | String c s' => Nat.eqb (utf8.size c) 1 && single_bytes s'
  end.

(** What [getLinkFileContent] gathers: the contents, in archive order, of
    the entries whose name the matcher accepts. *)
Definition manifest_text (matcher : regexp.Regexp) (files : list zipFile) : string :=
  fold_left
    (fun buffer file =>
       if regexp.MatchString matcher (Name file)
       then buffer +:+ default EmptyString (content file)
       else buffer)
    files EmptyString.

(** Every link of the document is working. *)
Definition all_working (document : Document) : bool :=
  forallb IsWorking (Hyperlinks document).

(** The documents the walk callback sends for a sequence of invocations. *)
Definition documents_found (calls : list WalkCall) : list Document :=
  flat_map
    (fun call =>
       match fileInfo call with
       | Some fileName =>
           if String.eqb (filepath_Ext fileName) ".docx"
              || String.eqb (filepath_Ext fileName) ".pptx"
           then [mkDocument (path call) (filepath_Ext fileName) false []]
           else []
       | None => []
       end)
    calls.

(** ** Sample runs *)

Definition letter_manifest : Manifest :=
  mkManifest
    [("<Relationships><Relationship Id=r1 ", "http://live.example/");
     (" TargetMode=External/><Relationship Id=r2 ", "http://gone.example/")]
    " TargetMode=External/></Relationships>".

Definition letter_archive : ReadCloser :=
  mkReadCloser
    [mkZipFile "[Content_Types].xml" (Some "<Types/>");
     mkZipFile "word/_rels/document.xml.rels" (Some (render letter_manifest));
     mkZipFile "word/document.xml" (Some "<w:document/>")].

(** One .docx with a live and an unreachable link. *)
Definition one_letter : Env :=
  mkEnv
    (fun _ => [mkWalkCall "." (Some ".") None;
               mkWalkCall "letter.docx" (Some "letter.docx") None;
               mkWalkCall "notes.txt" (Some "notes.txt") None])
    (fun file => if String.eqb file "letter.docx" then Some letter_archive else None)
    (fun request =>
       if String.eqb (Uri request) "http://live.example/" then None
       else Some "dial tcp: lookup gone.example: no such host")
    "2014-05-06 07:08:09.123456789 +0200 CEST".

(** A file named .docx that is not a zip archive, next to the letter. *)
Definition with_corrupt_document : Env :=
  mkEnv
    (fun _ => [mkWalkCall "." (Some ".") None;
               mkWalkCall "broken.docx" (Some "broken.docx") None;
               mkWalkCall "letter.docx" (Some "letter.docx") None])
    (zip_OpenReader one_letter)
    (goreq_Do one_letter)
    (time_Now one_letter).

(** A .docx whose only hyperlink record is a mail address. *)
Definition contact_manifest : Manifest :=
  mkManifest
    [("<Relationships><Relationship Id=r1 ", "mailto:info@example.org")]
    " TargetMode=External/></Relationships>".

Definition one_contact : Env :=
  mkEnv
    (fun _ => [mkWalkCall "contact.docx" (Some "contact.docx") None])
    (fun _ => Some (mkReadCloser
                      [mkZipFile "word/_rels/document.xml.rels"
                                 (Some (render contact_manifest))]))
    (fun _ => None)
    (time_Now one_letter).

(** A character of two bytes: e with acute accent, U+00E9. *)
Definition e_acute : string :=
  String (Ascii.ascii_of_nat 195) (String (Ascii.ascii_of_nat 169) EmptyString).

(** A directory that cannot be read: Walk hands its info and the error of
    the failed read to the callback. *)
Definition unreadable_directory : WalkCall :=
  mkWalkCall "private" (Some "private") (Some "open private: permission denied").

(** ** Absolute paths

    [filepath.Abs] depends on the working directory and is taken as given;
    [filepath.IsAbs] is the one of Unix systems. *)

Definition filepath_IsAbs (path : string) : bool := Str.prefix "/" path.

Section AbsolutePath.

(** [filepath.Abs]: the absolute path and the error, [None] for nil. *)
Variable filepath_Abs : string -> string * option string.

Definition getAbsoluteFilePath (path : string) : string :=
  (* check if the path is already absolute *)
  if filepath_IsAbs path
  then (* if so, return the path *) path
  else
    (* try to find the absolute path *)
    let r := filepath_Abs path in
    (* we return the original path, if there was an error *)
    if bool_decide (r.2 <> None) then path else r.1.

End AbsolutePath.

(** ** Reference notions for whole runs *)

(** The request a probe of [link] issues, the line printed before it, and
    the link as the probe leaves it. *)
Definition request_for (link : Hyperlink) : Request :=
  mkRequest (Url link) (15000 * Millisecond).

Definition checking_line (link : Hyperlink) : string :=
  "-- checking link: " +:+ Url link.

Definition probed (env : Env) (link : Hyperlink) : Hyperlink :=
  mkHyperlink (Url link) (negb (bool_decide (goreq_Do env (request_for link) <> None))).

(** An archive entry the matcher accepts can be opened. *)
Definition readable (matcher : regexp.Regexp) (file : zipFile) : Prop :=
  regexp.MatchString matcher (Name file) = true -> content file <> None.

(** The document's archive opens and its manifest entries can be read. *)
Definition opens (env : Env) (document : Document) : Prop :=
  exists container matcher,
    zip_OpenReader env (Path document) = Some container
    /\ matchers !! Type_ document = Some matcher
    /\ Forall (readable matcher) (File container).

(** The manifest text of a document, empty where there is none. *)
Definition gathered (env : Env) (document : Document) : string :=
  match zip_OpenReader env (Path document), matchers !! Type_ document with
  | Some container, Some matcher => manifest_text matcher (File container)
  | _, _ => EmptyString
  end.

(** A document with its links extracted and probed, and with its validity
    flag set. *)
Definition checked (env : Env) (document : Document) : Document :=
  mkDocument (Path document) (Type_ document) (IsValid document)
    (map (probed env) (extractHyperlinksFromContent (gathered env document))).

Definition marked (document : Document) : Document :=
  mkDocument (Path document) (Type_ document) (all_working document) (Hyperlinks document).

(** The report of a run, read off the environment. *)
Definition report_of (env : Env) : Report :=
  let documents := map (checked env) (documents_found (filepath_Walk env ".")) in
  mkReport (forallb all_working documents) ["."] (map marked documents) []
    (Str.take 19 (time_Now env)).

(** What a run that returns adds to the world, the probes of a document
    taken in the order of its links. *)
Definition world_after (env : Env) (w : World) : World :=
  let documents := map (checked env) (documents_found (filepath_Walk env ".")) in
  mkWorld (logged w)
    (printed w ++ ["Checking documents. Please wait .."]
       ++ flat_map (fun d => map checking_line (Hyperlinks d)) documents
       ++ ["we are done with these files"])
    (requested w ++ flat_map (fun d => map request_for (Hyperlinks d)) documents).

(** Every entry of the walk comes with its file info, and every document
    among them opens. *)
Definition healthy (env : Env) : Prop :=
  Forall (fun call => fileInfo call <> None) (filepath_Walk env ".")
  /\ Forall (opens env) (documents_found (filepath_Walk env ".")).

(** In [text] a match of the record's fixed part is followed by [url] and
    a double quote. *)
Definition target_in (url text : string) : Prop :=
  exists pre rest post,
    text = pre +:+ rest
    /\ wild_strip record_prefix rest = Some (url +:+ dq +:+ post).

(** The world with one more line in the log. *)
Definition with_log (line : string) (w : World) : World :=
  mkWorld (logged w ++ [line]) (printed w) (requested w).

(** The buffer after the entries the matcher accepts have been copied to
    it in archive order; [None] when one of them cannot be opened. *)
Fixpoint read_entries (matcher : regexp.Regexp) (files : list zipFile) (buffer : string)
  : option string :=
  match files with
  | [] => Some buffer
  | file :: files' =>
      if regexp.MatchString matcher (Name file)
      then match content file with
           | Some data => read_entries matcher files' (buffer +:+ data)
           | None => None
           end
      else read_entries matcher files' buffer
  end.

(** The report and the world of the run on [one_letter]. *)
Definition letter_report : Report :=
  mkReport false ["."]
    [mkDocument "letter.docx" ".docx" false
       [mkHyperlink "http://live.example/" true;
        mkHyperlink "http://gone.example/" false]]
    [] "2014-05-06 07:08:09".

Definition letter_world : World :=
  mkWorld []
    ["Checking documents. Please wait ..";
     "-- checking link: http://live.example/";
     "-- checking link: http://gone.example/";
     "we are done with these files"]
    [mkRequest "http://live.example/" (15000 * Millisecond);
     mkRequest "http://gone.example/" (15000 * Millisecond)].

(** A directory without documents. *)
Definition no_documents : Env :=
  mkEnv
    (fun _ => [mkWalkCall "." (Some ".") None;
               mkWalkCall "notes.txt" (Some "notes.txt") None;
               mkWalkCall "Plan.DOCX" (Some "Plan.DOCX") None])
    (fun _ => None)
    (fun _ => Some "unreachable")
    (time_Now one_letter).

(** * Properties *)

(** ** Strings *)

Module StrFacts.

Lemma append_nil_l (s : string) : EmptyString +:+ s = s.
Proof. reflexivity. Qed.

Lemma append_cons (c : ascii) (a b : string) :
  String c a +:+ b = String c (a +:+ b).
Proof. reflexivity. Qed.

Lemma append_nil_r (s : string) : s +:+ EmptyString = s.
Proof.
  induction s as [|c s IH]; [reflexivity |].
  now rewrite append_cons, IH.
Qed.

Lemma append_assoc (a b c : string) : (a +:+ b) +:+ c = a +:+ (b +:+ c).
Proof.
  induction a as [|x a IH]; [reflexivity |].
  now rewrite !append_cons, IH.
Qed.

Lemma length_append (a b : string) :
  String.length (a +:+ b) = String.length a + String.length b.
Proof.
  induction a as [|x a IH]; [reflexivity |].
  rewrite append_cons. simpl. now rewrite IH.
Qed.

Lemma drop_append (a b : string) : Str.drop (String.length a) (a +:+ b) = b.
Proof.
  induction a as [|x a IH]; [reflexivity |].
  rewrite append_cons. exact IH.
Qed.

Lemma take_append (a b : string) : Str.take (String.length a) (a +:+ b) = a.
Proof.
  induction a as [|x a IH]; [now destruct b |].
  rewrite append_cons. simpl. now rewrite IH.
Qed.

Lemma prefix_append (p s : string) : Str.prefix p (p +:+ s) = true.
Proof.
  induction p as [|c p IH]; [reflexivity |].
  rewrite append_cons. simpl. now rewrite Ascii.eqb_refl.
Qed.

Lemma contains_here (p s : string) : Str.prefix p s = true -> Str.contains p s = true.
Proof. intros H. destruct s; simpl; now rewrite H. Qed.

Lemma contains_append (p a b : string) : Str.contains p (a +:+ p +:+ b) = true.
Proof.
  induction a as [|x a IH].
  - rewrite append_nil_l. apply contains_here, prefix_append.
  - rewrite append_cons. simpl. rewrite IH. apply orb_true_r.
Qed.

End StrFacts.

(** ** Characters *)

Module Utf8Facts.
Import utf8.

Lemma between_continuation (lo hi : N) (d : ascii) :
  (128 <= lo)%N -> (hi <= 191)%N -> between lo hi d = true -> continuation d = true.
Proof.
  unfold continuation, between. intros Hlo Hhi H.
  apply andb_prop in H as [H1 H2]. apply N.leb_le in H1, H2.
  apply andb_true_intro. split; apply N.leb_le; lia.
Qed.

Lemma second_continuation (c d : ascii) : second c d = true -> continuation d = true.
Proof.
  unfold second.
  destruct (byte c =? 224)%N; [apply between_continuation; lia |].
  destruct (byte c =? 237)%N; [apply between_continuation; lia |].
  destruct (byte c =? 240)%N; [apply between_continuation; lia |].
  destruct (byte c =? 244)%N; [apply between_continuation; lia |].
  trivial.
Qed.

Ltac trail_cases c s :=
  unfold trail;
  destruct (size c) as [|[|[|[|[|?]]]]];
  destruct s as [|?d [|?e [|?f ?s]]];
  repeat (cbn [andb continuations String.length];
          match goal with
          | |- context [second ?a ?b] =>
              let E := fresh "E" in
              destruct (second a b) eqn:E;
              [apply second_continuation in E |]
          | H : continuation ?a = _ |- context [continuation ?a] => rewrite H
          | |- context [continuation ?a] =>
              let E := fresh "E" in destruct (continuation a) eqn:E
          end);
  cbn [andb continuations String.length].

(** The bytes of a character after its first are continuation bytes. *)
Lemma trail_continuations (c : ascii) (s : string) :
  continuations (trail c s) s = true.
Proof. trail_cases c s; try reflexivity; try congruence. Qed.

Lemma continuations_length (k : nat) (s : string) :
  continuations k s = true -> k <= String.length s.
Proof.
  revert s. induction k as [|k IH]; intros s H; [lia |].
  destruct s as [|c s]; [discriminate |]. cbn [continuations] in H.
  apply andb_prop in H as [_ H]. apply IH in H. cbn [String.length]. lia.
Qed.

Lemma trail_le (c : ascii) (s : string) : trail c s <= String.length s.
Proof. apply continuations_length, trail_continuations. Qed.

(** A byte that is no continuation byte ends the character before it. *)
Lemma continuations_app_le (k : nat) (a : string) (x : ascii) (b : string) :
  continuation x = false ->
  continuations k (a +:+ String x b) = true -> k <= String.length a.
Proof.
  intros Hx. revert a. induction k as [|k IH]; intros a H; [lia |].
  destruct a as [|c a].
  - rewrite StrFacts.append_nil_l in H. cbn [continuations] in H. now rewrite Hx in H.
  - rewrite StrFacts.append_cons in H. cbn [continuations] in H.
    apply andb_prop in H as [_ H]. apply IH in H. cbn [String.length]. lia.
Qed.

Lemma trail_app_le (c : ascii) (a : string) (x : ascii) (b : string) :
  continuation x = false -> trail c (a +:+ String x b) <= String.length a.
Proof. intros Hx. eapply continuations_app_le; [exact Hx | apply trail_continuations]. Qed.

Lemma trail_app (c : ascii) (a : string) (x : ascii) (b : string) :
  continuation x = false -> trail c (a +:+ String x b) = trail c a.
Proof.
  intros Hx. unfold trail.
  destruct (size c) as [|[|[|[|[|?]]]]]; try reflexivity;
    destruct a as [|d [|e [|f a]]]; destruct b as [|g [|h b]];
    rewrite ?StrFacts.append_cons, ?StrFacts.append_nil_l;
    repeat match goal with
           | |- context [second ?u ?v] =>
               let E := fresh "E" in
               destruct (second u v) eqn:E; [apply second_continuation in E |]
           | H : continuation ?u = _ |- context [continuation ?u] => rewrite H
           | |- context [continuation ?u] =>
               let E := fresh "E" in destruct (continuation u) eqn:E
           end;
    cbn [andb]; congruence.
Qed.

Lemma trail_single (c : ascii) (s : string) : size c = 1 -> trail c s = 0.
Proof. intros H. unfold trail. now rewrite H. Qed.

Lemma drop_app (k : nat) (a b : string) :
  k <= String.length a -> Str.drop k (a +:+ b) = Str.drop k a +:+ b.
Proof.
  revert a. induction k as [|k IH]; intros a H; [reflexivity |].
  destruct a as [|c a]; cbn [String.length] in H; [lia |].
  rewrite StrFacts.append_cons. cbn [Str.drop]. apply IH. lia.
Qed.

Lemma drop_length (k : nat) (s : string) :
  String.length (Str.drop k s) = String.length s - k.
Proof.
  revert s. induction k as [|k IH]; intros s; cbn [Str.drop]; [lia |].
  destruct s as [|c s]; cbn [String.length]; [reflexivity | apply IH].
Qed.

(** A line feed is no continuation byte. *)
Lemma continuation_lf (c : ascii) : regexp.is_lf c = true -> continuation c = false.
Proof.
  unfold regexp.is_lf. intros H. apply Ascii.eqb_eq in H. now subst c.
Qed.

End Utf8Facts.

(** ** The matcher on patterns without operators *)

Module RegexpFacts.
Import regexp.

Lemma has_char_cons (c d : ascii) (s : string) :
  has_char c (String d s) = Ascii.eqb c d || has_char c s.
Proof. reflexivity. Qed.

Lemma wild_prefix_Some (p s rest : string) :
  wild_strip p s = Some rest -> wild_prefix p s = true.
Proof. unfold wild_prefix. now intros ->. Qed.

Lemma wild_prefix_None (p s : string) :
  wild_prefix p s = false -> wild_strip p s = None.
Proof. unfold wild_prefix. now destruct (wild_strip p s). Qed.

Lemma exec_literal (p : string) (re : Regexp) (s : string) :
  exec (literal p ++ re) s =
  match wild_strip p s with
  | Some rest => exec re rest
  | None => None
  end.
Proof.
  revert s. induction p as [|c p IH]; intros s; [reflexivity |].
  cbn [literal wild_strip]. destruct (Ascii.eqb c ".") eqn:Ec; cbn [app exec];
    destruct s as [|d s]; try reflexivity.
  - destruct (is_lf d); [reflexivity | apply IH].
  - destruct (Ascii.eqb c d); [apply IH | reflexivity].
Qed.

Lemma exec_literal_nil (p s : string) :
  exec (literal p) s =
  match wild_strip p s with
  | Some rest => Some ([], rest)
  | None => None
  end.
Proof.
  rewrite <- (app_nil_r (literal p)), exec_literal.
  now destruct (wild_strip p s).
Qed.

Lemma star_is_Some (k : string -> option Match) (skip : nat) (s : string) :
  (forall t, is_Some (k t)) -> skip <= String.length s -> is_Some (star k skip s).
Proof.
  intros Hk. revert skip. induction s as [|d s IH]; intros skip Hskip.
  - cbn [String.length] in Hskip. replace skip with 0 by lia. apply Hk.
  - cbn [star]. destruct skip as [|skip].
    + destruct (is_lf d); [apply Hk |].
      destruct (star k (utf8.trail d s) s); [eauto | apply Hk].
    + apply IH. cbn [String.length] in Hskip. lia.
Qed.

(** A pattern that begins with a byte which continues no character can
    only match where a character begins: the search of the matcher finds
    what a search at every byte finds. *)
Lemma search_literal (c : ascii) (p : string) (re : Regexp) (skip : nat) (s : string) :
  Ascii.eqb c "." = false -> utf8.continuation c = false ->
  (forall t, is_Some (exec re t)) ->
  utf8.continuations skip s = true ->
  search (literal (String c p) ++ re) skip s = wild_contains (String c p) s.
Proof.
  intros Hdot Hc Hre.
  assert (Hexec : forall t,
            exec (literal (String c p) ++ re) t
            = if wild_prefix (String c p) t
              then exec (literal (String c p) ++ re) t else None).
  { intros t. rewrite exec_literal. unfold wild_prefix.
    now destruct (wild_strip (String c p) t). }
  assert (Hsome : forall t, wild_prefix (String c p) t = true ->
                            is_Some (exec (literal (String c p) ++ re) t)).
  { intros t H. rewrite exec_literal. unfold wild_prefix in H.
    destruct (wild_strip (String c p) t); [apply Hre | discriminate]. }
  revert skip. induction s as [|d s IH]; intros skip Hskip.
  - destruct skip; [| discriminate]. cbn [search wild_contains]. rewrite orb_false_r.
    rewrite Hexec. destruct (wild_prefix (String c p) EmptyString) eqn:E; [| reflexivity].
    now destruct (Hsome _ E) as [r ->].
  - cbn [wild_contains]. destruct skip as [|skip]; cbn [search].
    + rewrite Hexec. destruct (wild_prefix (String c p) (String d s)) eqn:E.
      * now destruct (Hsome _ E) as [r ->].
      * apply IH, Utf8Facts.trail_continuations.
    + cbn [utf8.continuations] in Hskip. apply andb_prop in Hskip as [Hd Hskip].
      rewrite (IH _ Hskip).
      assert (E : wild_prefix (String c p) (String d s) = false).
      { unfold wild_prefix. cbn [wild_strip]. rewrite Hdot.
        destruct (Ascii.eqb c d) eqn:Ecd; [| reflexivity].
        apply Ascii.eqb_eq in Ecd. congruence. }
      now rewrite E.
Qed.

Lemma MatchString_literal (c : ascii) (p s : string) :
  Ascii.eqb c "." = false -> utf8.continuation c = false ->
  MatchString (literal (String c p)) s = wild_contains (String c p) s.
Proof.
  intros Hdot Hc. unfold MatchString.
  rewrite <- (app_nil_r (literal (String c p))).
  apply search_literal; try assumption; [| reflexivity].
  intros t. cbn [exec]. eauto.
Qed.

Lemma MatchString_literal_star (c : ascii) (p s : string) :
  Ascii.eqb c "." = false -> utf8.continuation c = false ->
  MatchString (literal (String c p) ++ [AnyStar]) s = wild_contains (String c p) s.
Proof.
  intros Hdot Hc. unfold MatchString.
  apply search_literal; try assumption; [| reflexivity].
  intros t. cbn [exec]. apply star_is_Some; [cbn [exec]; eauto | lia].
Qed.

Lemma wild_strip_plain (p s : string) :
  has_char "." p = false ->
  wild_strip p s = if Str.prefix p s then Some (Str.drop (String.length p) s) else None.
Proof.
  revert s. induction p as [|c p IH]; intros s Hp; [reflexivity |].
  rewrite has_char_cons in Hp. apply orb_false_elim in Hp as [Hc Hp].
  rewrite Ascii.eqb_sym in Hc.
  destruct s as [|d s]; cbn [wild_strip Str.prefix]; [reflexivity |].
  rewrite Hc. destruct (Ascii.eqb c d); [now apply IH | reflexivity].
Qed.

Lemma wild_prefix_plain (p s : string) :
  has_char "." p = false -> wild_prefix p s = Str.prefix p s.
Proof.
  intros Hp. unfold wild_prefix. rewrite wild_strip_plain by exact Hp.
  now destruct (Str.prefix p s).
Qed.

Lemma wild_contains_plain (p s : string) :
  has_char "." p = false -> wild_contains p s = Str.contains p s.
Proof.
  intros Hp. induction s as [|d s IH]; cbn [wild_contains Str.contains];
    rewrite wild_prefix_plain by exact Hp; [reflexivity | now rewrite IH].
Qed.

(** The two patterns of the filter. *)
Lemma microsoft_matcher (url : string) :
  MatchString (matchers !!! "microsoft") url =
  wild_contains "http://office.microsoft.com" url.
Proof.
  change (matchers !!! "microsoft") with (literal "http://office.microsoft.com").
  now apply MatchString_literal.
Qed.

Lemma mailto_matcher (url : string) :
  MatchString (matchers !!! "mailto") url = Str.contains "mailto:" url.
Proof.
  change (matchers !!! "mailto") with (literal "mailto:" ++ [AnyStar]).
  rewrite MatchString_literal_star by reflexivity. now apply wild_contains_plain.
Qed.

(** The matchers at work. *)
Example pptx_matcher_compiled :
  matchers !! ".pptx"
  = Some (literal "ppt/slides/_rels/" ++ [AnyStar] ++ literal ".xml.rels").
Proof. reflexivity. Qed.

Example pptx_matcher_accepts :
  MatchString (matchers !!! ".pptx") "ppt/slides/_rels/slide12.xml.rels" = true
  /\ MatchString (matchers !!! ".pptx") "ppt/slides/slide12.xml" = false
  /\ MatchString (matchers !!! ".docx") "word/_rels/document.xml.rels" = true
  /\ MatchString (matchers !!! ".docx") "word/document.xml" = false.
Proof. repeat split; vm_compute; reflexivity. Qed.

Example hyperlink_matcher_finds :
  FindAllStringSubmatch (matchers !!! "hyperlink")
    ("<a " +:+ hyperlink_record "http://a.b/" +:+ "/><b "
     +:+ hyperlink_record "mailto:c@d.e" +:+ "/>")
  = [[hyperlink_record "http://a.b/"; "http://a.b/"];
     [hyperlink_record "mailto:c@d.e"; "mailto:c@d.e"]].
Proof. vm_compute. reflexivity. Qed.

(** A dot of a pattern takes a character of two bytes. *)
Example dot_takes_a_character :
  MatchString (matchers !!! "microsoft") ("http://office" +:+ e_acute +:+ "microsoft.com/")
  = true
  /\ MatchString (matchers !!! ".docx") ("word/_rels/document" +:+ e_acute +:+ "xml.rels")
     = true
  /\ wild_contains "http://office.microsoft.com"
       ("http://office" +:+ e_acute +:+ "microsoft.com/") = true.
Proof. repeat split; vm_compute; reflexivity. Qed.

End RegexpFacts.

(** ** Link filter *)

Module FilterFacts.

Lemma loop_invariant (hyperlinks acc : list Hyperlink) :
  fold_left
    (fun filteredLinks link =>
       let isMicrosoft := regexp.MatchString (matchers !!! "microsoft") (Url link) in
       let isEmpty := String.eqb (Url link) EmptyString in
       let isMail := regexp.MatchString (matchers !!! "mailto") (Url link) in
       if negb isMicrosoft && negb isEmpty && negb isMail
       then filteredLinks ++ [link]
       else filteredLinks)
    hyperlinks acc
  = acc ++ List.filter keep hyperlinks.
Proof.
  revert acc. induction hyperlinks as [|link rest IH]; intros acc.
  - simpl. now rewrite app_nil_r.
  - cbn [fold_left List.filter]. rewrite IH. unfold keep at 2, dropped.
    rewrite RegexpFacts.microsoft_matcher, RegexpFacts.mailto_matcher.
    destruct (wild_contains _ (Url link)), (String.eqb (Url link) EmptyString),
      (Str.contains _ (Url link)); cbn [negb andb orb]; try reflexivity.
    now rewrite <- app_assoc.
Qed.

Lemma filterHyperlinks_filter (hyperlinks : list Hyperlink) :
  filterHyperlinks hyperlinks = List.filter keep hyperlinks.
Proof. unfold filterHyperlinks. now rewrite loop_invariant. Qed.

Lemma filter_filter {A} (f : A -> bool) (l : list A) :
  List.filter f (List.filter f l) = List.filter f l.
Proof.
  induction l as [|x l IH]; [reflexivity |].
  simpl. destruct (f x) eqn:E; [| exact IH].
  simpl. now rewrite E, IH.
Qed.

Lemma has_char_append (c : ascii) (a b : string) :
  has_char c (a +:+ b) = has_char c a || has_char c b.
Proof.
  induction a as [|x a IH]; [reflexivity |].
  rewrite StrFacts.append_cons, !RegexpFacts.has_char_cons, IH.
  apply orb_assoc.
Qed.

Lemma wild_contains_cons (p : string) (c : ascii) (s : string) :
  wild_contains p (String c s) = wild_prefix p (String c s) || wild_contains p s.
Proof. reflexivity. Qed.

Lemma wild_contains_here (p s : string) :
  wild_prefix p s = true -> wild_contains p s = true.
Proof. intros H. destruct s; simpl; now rewrite H. Qed.

Lemma wild_contains_append (p pre s : string) :
  wild_contains p s = true -> wild_contains p (pre +:+ s) = true.
Proof.
  intros H. induction pre as [|x pre IH]; [exact H |].
  rewrite StrFacts.append_cons. simpl. rewrite IH. apply orb_true_r.
Qed.

End FilterFacts.

(** C8. The filter is idempotent: filtering an already filtered sequence
    of links changes nothing. *)
Theorem filterHyperlinks_idempotent (x : list Hyperlink) :
  filterHyperlinks (filterHyperlinks x) = filterHyperlinks x.
Proof.
  rewrite !FilterFacts.filterHyperlinks_filter.
  apply FilterFacts.filter_filter.
Qed.

(** C6, as stated, fails: a link whose URL is not empty, does not contain
    the vendor domain and does not start with [mailto:] is dropped all the
    same when [mailto:] occurs further inside. *)
Lemma filterHyperlinks_drops_inner_mailto :
  let link := mkHyperlink "http://a.b/?to=mailto:c" false in
  Url link <> EmptyString
  /\ Str.contains "http://office.microsoft.com" (Url link) = false
  /\ Str.prefix "mailto:" (Url link) = false
  /\ filterHyperlinks [link] = [].
Proof. repeat split; [discriminate | vm_compute; reflexivity ..]. Qed.

(** C6, amended. The filter drops exactly the links whose URL is empty, or
    contains a match of the pattern [http://office.microsoft.com] (a [.]
    standing for any character other than a line feed), or contains
    [mailto:] anywhere; what remains is the input with those entries
    removed, in the same order and with repetitions kept. *)
Theorem filterHyperlinks_drops_exactly (hyperlinks : list Hyperlink) :
  filterHyperlinks hyperlinks
  = List.filter (fun link => negb (dropped (Url link))) hyperlinks.
Proof.
  unfold filterHyperlinks. rewrite FilterFacts.loop_invariant.
  apply filter_ext. intros link. reflexivity.
Qed.

(** ** Running computations *)

Module RunFacts.

Lemma bind_Returned {A B} (m : Run A) (k : A -> Run B) (w w' : World) (b : B) :
  bind m k w = (Returned b, w') ->
  exists a w1, m w = (Returned a, w1) /\ k a w1 = (Returned b, w').
Proof.
  unfold bind. destruct (m w) as [[a | msg] w1]; intros H; [eauto | discriminate].
Qed.

Lemma bind_eq {A B} (m : Run A) (k : A -> Run B) (w w1 : World) (a : A) :
  m w = (Returned a, w1) -> bind m k w = k a w1.
Proof. unfold bind. now intros ->. Qed.

Lemma bind_Panicked {A B} (m : Run A) (k : A -> Run B) (w w1 : World) (msg : string) :
  m w = (Panicked msg, w1) -> bind m k w = (Panicked msg, w1).
Proof. unfold bind. now intros ->. Qed.

End RunFacts.

(** ** Reachability probe *)

(** C5. One call of [validate] issues exactly one request, for the link's
    URL, and marks the link broken exactly when that one fetch returned an
    error, working otherwise. *)
Theorem validate_single_attempt (env : Env) (link : Hyperlink) (w : World) :
  let request := mkRequest (Url link) (15000 * Millisecond) in
  exists working : bool,
    validate env link w
    = (Returned (mkHyperlink (Url link) working),
       mkWorld (logged w) (printed w) (requested w ++ [request]))
    /\ (working = false <-> goreq_Do env request <> None).
Proof.
  intros request. unfold validate, bind, Do. fold request.
  destruct (goreq_Do env request) as [e |] eqn:E.
  - exists false. rewrite bool_decide_true by discriminate.
    split; [reflexivity | split; [discriminate | reflexivity]].
  - exists true. rewrite bool_decide_false by (intros H; now apply H).
    split; [reflexivity | split; [discriminate | intros H; now destruct H]].
Qed.

(** C7, as stated, fails: the request of a probe carries a timeout of 15
    seconds, not 5, and nothing in the environment of the run sets it. *)
Lemma validate_timeout_is_not_5s :
  requested (validate one_letter (mkHyperlink "http://live.example/" false) start).2
  = [mkRequest "http://live.example/" (15 * Second)]
  /\ (15 * Second <> 5 * Second)%Z.
Proof. split; [reflexivity | discriminate]. Qed.

(** C7, amended. Every probe issues its request with the same fixed
    timeout of 15 seconds, whatever the link and the environment. *)
Theorem validate_timeout_fixed (env : Env) (link : Hyperlink) (w : World) :
  map Timeout (requested (validate env link w).2)
  = map Timeout (requested w) ++ [(15 * Second)%Z].
Proof.
  unfold validate, bind, Do.
  destruct (bool_decide _); simpl; now rewrite map_app.
Qed.

(** ** Directory walk *)

(** C4, as stated, fails: for a directory that cannot be read the callback
    is invoked with a non-nil error and writes no log entry; and an entry
    with an error whose name ends in .docx is not skipped but sent on as a
    document. *)
Lemma walkFn_error_not_logged :
  err unreadable_directory <> None
  /\ walkFn unreadable_directory start = (Returned ([], None), start)
  /\ walkFn (mkWalkCall "old.docx" (Some "old.docx") (Some "permission denied")) start
     = (Returned ([mkDocument "old.docx" ".docx" false []], None), start).
Proof. split; [discriminate | split; reflexivity]. Qed.

(** C4, amended. The callback ignores the error it is handed: when every
    invocation comes with a file info, the walk visits all entries, sends
    the documents among them in order whether or not the invocation carried
    an error, and logs nothing. *)
Theorem Walk_ignores_errors (calls : list WalkCall) (w : World) :
  Forall (fun call => fileInfo call <> None) calls ->
  Walk calls w = (Returned (documents_found calls), w).
Proof.
  induction 1 as [|call calls Hinfo _ IH]; [reflexivity |].
  destruct call as [p [fileName |] e]; [| now contradiction Hinfo].
  cbn [Walk].
  rewrite (RunFacts.bind_eq _ _ w w
             (documents_found [mkWalkCall p (Some fileName) e], None)).
  - cbn [snd fst]. rewrite (RunFacts.bind_eq _ _ _ _ _ IH).
    unfold ret, documents_found. cbn [flat_map]. now rewrite app_nil_r.
  - unfold documents_found. cbn [flat_map]. now rewrite app_nil_r.
Qed.

Lemma Walk_ignores_errors_witness :
  Walk [mkWalkCall "." (Some ".") None; unreadable_directory;
        mkWalkCall "letter.docx" (Some "letter.docx") None] start
  = (Returned [mkDocument "letter.docx" ".docx" false []], start).
Proof.
  apply (Walk_ignores_errors
           [mkWalkCall "." (Some ".") None; unreadable_directory;
            mkWalkCall "letter.docx" (Some "letter.docx") None] start).
  repeat constructor; discriminate.
Defined.

(** ** Aggregation *)

Module AggregationFacts.

Lemma check_links_forallb (links : list Hyperlink) (isValid resultOfValidation : bool) :
  check_links links isValid resultOfValidation
  = (isValid && forallb IsWorking links, resultOfValidation && forallb IsWorking links).
Proof.
  unfold check_links.
  revert isValid resultOfValidation.
  induction links as [|link links IH]; intros v r; simpl.
  - now rewrite !andb_true_r.
  - destruct (IsWorking link) eqn:E.
    + rewrite bool_decide_false by discriminate. apply IH.
    + rewrite bool_decide_true by reflexivity. rewrite IH. simpl.
      now rewrite !andb_false_r.
Qed.

Lemma check_documents_result (documents : list Document) (resultOfValidation : bool) :
  (check_documents documents resultOfValidation).2
  = resultOfValidation && forallb all_working documents.
Proof.
  revert resultOfValidation.
  induction documents as [|d documents IH]; intros r; simpl.
  - now rewrite andb_true_r.
  - rewrite IH, check_links_forallb. simpl. unfold all_working at 2.
    now rewrite andb_assoc.
Qed.

Lemma check_documents_documents (documents : list Document) (resultOfValidation : bool) :
  (check_documents documents resultOfValidation).1
  = map (fun d => mkDocument (Path d) (Type_ d) (all_working d) (Hyperlinks d)) documents.
Proof.
  revert resultOfValidation.
  induction documents as [|d documents IH]; intros r; simpl; [reflexivity |].
  now rewrite IH, check_links_forallb.
Qed.

(** What [main] returns, in terms of the documents it was given. *)
Lemma main_report (env : Env) (w w' : World) (report : Report) :
  main env w = (Returned report, w') ->
  exists documents : list Document,
    report = mkReport (forallb all_working documents) ["."]
               (map (fun d => mkDocument (Path d) (Type_ d) (all_working d) (Hyperlinks d))
                    documents)
               [] (Str.take 19 (time_Now env)).
Proof.
  unfold main. intros H.
  apply RunFacts.bind_Returned in H as (? & w1 & _ & H).
  apply RunFacts.bind_Returned in H as (documents & w2 & _ & H).
  exists documents. unfold ret in H. injection H as <- _.
  rewrite check_documents_result, check_documents_documents. simpl.
  now destruct (forallb all_working documents).
Qed.

(** The part of the report invariant the program keeps: the overall flag
    is true exactly when no document of the report has a broken link. *)
Lemma main_ResultOfValidation (env : Env) (w w' : World) (report : Report) :
  main env w = (Returned report, w') ->
  ResultOfValidation report = true <->
  forall document link,
    In document (Documents report) -> In link (Hyperlinks document) ->
    IsWorking link = true.
Proof.
  intros H. apply main_report in H as [documents ->]. simpl.
  rewrite forallb_forall. split.
  - intros Hall document link Hd Hl.
    apply in_map_iff in Hd as (d & <- & Hd). simpl in Hl.
    specialize (Hall d Hd). unfold all_working in Hall.
    rewrite forallb_forall in Hall. now apply Hall.
  - intros Hall d Hd. unfold all_working. rewrite forallb_forall. intros link Hl.
    apply (Hall (mkDocument (Path d) (Type_ d) (all_working d) (Hyperlinks d)) link);
      [| exact Hl].
    apply in_map_iff. now exists d.
Qed.

(** The broken-link list is never filled in. *)
Lemma main_InvalidHyperlinks (env : Env) (w w' : World) (report : Report) :
  main env w = (Returned report, w') -> InvalidHyperlinks report = [].
Proof. intros H. now apply main_report in H as [documents ->]. Qed.

End AggregationFacts.

(** C2. In the report of a run, a document is flagged valid exactly when
    every one of its links is working; a document without links is valid. *)
Theorem document_valid_iff_links_working
  (env : Env) (w w' : World) (report : Report) (document : Document) :
  main env w = (Returned report, w') ->
  In document (Documents report) ->
  (IsValid document = true <->
   forall link, In link (Hyperlinks document) -> IsWorking link = true)
  /\ (Hyperlinks document = [] -> IsValid document = true).
Proof.
  intros H Hd. apply AggregationFacts.main_report in H as [documents ->].
  simpl in Hd. apply in_map_iff in Hd as (d & <- & _). simpl.
  unfold all_working. split.
  - apply forallb_forall.
  - now intros ->.
Qed.

Lemma document_valid_iff_links_working_witness :
  let document :=
    mkDocument "letter.docx" ".docx" false
      [mkHyperlink "http://live.example/" true; mkHyperlink "http://gone.example/" false] in
  (IsValid document = true <->
   forall link, In link (Hyperlinks document) -> IsWorking link = true)
  /\ (Hyperlinks document = [] -> IsValid document = true).
Proof.
  intros document.
  refine (document_valid_iff_links_working one_letter start
            (main one_letter start).2 (mkReport false ["."] [document] [] "2014-05-06 07:08:09")
            document _ _).
  - vm_compute. reflexivity.
  - left. reflexivity.
Defined.

(** C1, on a run with one unreachable link: the report is flagged invalid
    and its document holds the broken link, yet the report's list of
    broken links is empty. *)
Theorem report_misses_broken_link :
  exists (report : Report) (w' : World),
    main one_letter start = (Returned report, w')
    /\ ResultOfValidation report = false
    /\ (exists document,
           In document (Documents report)
           /\ In (mkHyperlink "http://gone.example/" false) (Hyperlinks document))
    /\ InvalidHyperlinks report = [].
Proof.
  eexists _, _. split; [vm_compute; reflexivity |].
  split; [reflexivity |]. split; [| reflexivity].
  eexists. split; [left; reflexivity | right; left; reflexivity].
Qed.

(** ** Unreadable archives *)

Module ArchiveFacts.

(** A file that is not a zip archive: the error is logged, then the nil
    container is dereferenced. *)
Lemma getLinkFileContent_unopened (env : Env) (document : Document) (w : World) :
  zip_OpenReader env (Path document) = None ->
  getLinkFileContent env document w
  = (Panicked nil_dereference,
     mkWorld (logged w ++ ["ERROR: could not open the file"]) (printed w) (requested w)).
Proof. intros H. unfold getLinkFileContent. rewrite H. reflexivity. Qed.

(** An archive whose first manifest entry cannot be opened: the error is
    logged, then the nil reader is used. *)
Lemma getLinkFileContent_unreadable_entry (env : Env) (document : Document)
    (matcher : regexp.Regexp) (file : zipFile) (files : list zipFile) (w : World) :
  zip_OpenReader env (Path document) = Some (mkReadCloser (file :: files)) ->
  matchers !! Type_ document = Some matcher ->
  regexp.MatchString matcher (Name file) = true ->
  content file = None ->
  getLinkFileContent env document w
  = (Panicked nil_dereference,
     mkWorld (logged w ++ ["ERROR: coult not read file content"]) (printed w) (requested w)).
Proof.
  intros Ho Hm Hmatch Hc. unfold getLinkFileContent. rewrite Ho.
  rewrite bool_decide_false by discriminate.
  unfold when.
  rewrite (RunFacts.bind_eq _ _ w w tt) by reflexivity.
  rewrite (RunFacts.bind_eq _ _ w w (mkReadCloser (file :: files))) by reflexivity.
  change (File (mkReadCloser (file :: files))) with (file :: files).
  cbn [for_fold]. apply RunFacts.bind_Panicked.
  rewrite Hm. rewrite (RunFacts.bind_eq _ _ w w matcher) by reflexivity.
  rewrite Hmatch, Hc. reflexivity.
Qed.

End ArchiveFacts.

(** C3, on a run over a directory that holds a file named .docx which is
    not a zip archive: the failure is logged, then the program panics; no
    report is produced and the document after it is never looked at. *)
Theorem corrupt_archive_panics :
  exists w' : World,
    main with_corrupt_document start = (Panicked nil_dereference, w')
    /\ logged w' = ["ERROR: could not open the file"]
    /\ requested w' = [].
Proof. eexists. split; [vm_compute; reflexivity | split; reflexivity]. Qed.

(** ** Link extraction *)

Module ExtractFacts.
Import regexp.

Lemma hyperlink_matcher :
  matchers !!! "hyperlink" = literal record_prefix ++ [LazyGroup "url"; Lit quote].
Proof. vm_compute. reflexivity. Qed.

(** A pattern matches its own text. *)
Lemma wild_strip_self (p x : string) : wild_strip p (p +:+ x) = Some x.
Proof.
  induction p as [|c p IH]; [reflexivity |].
  rewrite StrFacts.append_cons. cbn [wild_strip].
  destruct (Ascii.eqb c ".") eqn:Ec.
  - apply Ascii.eqb_eq in Ec as ->.
    replace (is_lf ".") with false by reflexivity.
    rewrite Utf8Facts.trail_single by reflexivity. exact IH.
  - now rewrite Ascii.eqb_refl.
Qed.

Lemma continuation_quote : utf8.continuation quote = false.
Proof. reflexivity. Qed.

(** The lazy group stops at the first double quote. *)
Lemma lazy_until_quote (v acc rest : string) (skip : nat) :
  has_char quote v = false -> has_char line_feed v = false ->
  skip <= String.length v ->
  lazy (exec [Lit quote]) skip acc (v +:+ String quote rest) = Some ([acc +:+ v], rest).
Proof.
  revert acc skip. induction v as [|e v IH]; intros acc skip Hq Hlf Hskip.
  - cbn [String.length] in Hskip. replace skip with 0 by lia.
    rewrite StrFacts.append_nil_l, StrFacts.append_nil_r.
    cbn [lazy exec]. now rewrite Ascii.eqb_refl.
  - rewrite RegexpFacts.has_char_cons in Hq, Hlf.
    apply orb_false_elim in Hq as [Hq Hqv]. apply orb_false_elim in Hlf as [Hlf Hlfv].
    rewrite StrFacts.append_cons. cbn [String.length] in Hskip.
    assert (Hacc : forall n, n <= String.length v ->
              lazy (exec [Lit quote]) n (Str.snoc acc e) (v +:+ String quote rest)
              = Some ([acc +:+ String e v], rest)).
    { intros n Hn. rewrite IH by assumption. unfold Str.snoc.
      now rewrite StrFacts.append_assoc. }
    destruct skip as [|skip]; cbn [lazy exec].
    + rewrite Hq. unfold is_lf. rewrite Ascii.eqb_sym, Hlf.
      apply Hacc, Utf8Facts.trail_app_le, continuation_quote.
    + apply Hacc. lia.
Qed.

Lemma plain_target_inv (target : string) :
  plain_target target = true ->
  exists d v, target = String d v
    /\ is_lf d = false
    /\ has_char quote v = false
    /\ has_char line_feed v = false.
Proof.
  unfold plain_target. intros H.
  apply andb_prop in H as [H Hlf]. apply andb_prop in H as [Hne Hq].
  apply negb_true_iff in Hlf, Hq, Hne.
  destruct target as [|d v]; [discriminate |].
  rewrite RegexpFacts.has_char_cons in Hlf, Hq.
  apply orb_false_elim in Hlf as [Hlf Hlfv]. apply orb_false_elim in Hq as [_ Hqv].
  exists d, v. repeat split; try assumption.
Qed.

(** The pattern matches a record placed at the start of the text and
    captures its target. *)
Lemma exec_record (target rest : string) :
  plain_target target = true ->
  exec (matchers !!! "hyperlink") (hyperlink_record target +:+ rest)
  = Some ([target], rest).
Proof.
  intros Hplain. rewrite hyperlink_matcher, RegexpFacts.exec_literal.
  unfold hyperlink_record. rewrite !StrFacts.append_assoc, wild_strip_self.
  destruct (plain_target_inv _ Hplain) as (d & v & -> & Hd & Hq & Hlf).
  rewrite StrFacts.append_cons. cbn [exec]. rewrite Hd.
  unfold dq. rewrite StrFacts.append_cons, StrFacts.append_nil_l.
  rewrite lazy_until_quote; try assumption; [reflexivity |].
  apply Utf8Facts.trail_app_le, continuation_quote.
Qed.

(** A match that begins in [a] either ends in [a], or takes all of [a]
    and goes on in what follows, when that begins with a byte which
    continues no character. *)
Lemma wild_strip_app_inv (p a : string) (x : ascii) (b rest : string) :
  utf8.continuation x = false ->
  wild_strip p (a +:+ String x b) = Some rest ->
  (exists ra, wild_strip p a = Some ra /\ rest = ra +:+ String x b)
  \/ (exists p1 p2, p = p1 +:+ p2 /\ p2 <> EmptyString
                    /\ wild_strip p1 a = Some EmptyString
                    /\ wild_strip p2 (String x b) = Some rest).
Proof.
  intros Hx. revert a. induction p as [|c p IH]; intros a H.
  - cbn [wild_strip] in H. left. exists a. split; [reflexivity | congruence].
  - destruct a as [|y a].
    + right. exists EmptyString, (String c p). now repeat split.
    + rewrite StrFacts.append_cons in H. cbn [wild_strip] in H |- *.
      assert (Hlift : forall a',
                wild_strip p (a' +:+ String x b) = Some rest ->
                (exists ra, wild_strip p a' = Some ra /\ rest = ra +:+ String x b)
                \/ (exists p1 p2, String c p = String c p1 +:+ p2 /\ p2 <> EmptyString
                                  /\ wild_strip p1 a' = Some EmptyString
                                  /\ wild_strip p2 (String x b) = Some rest)).
      { intros a' H'. destruct (IH a' H') as [Hl | (p1 & p2 & -> & Hp2 & H1 & H2)];
          [now left | right]. now exists p1, p2. }
      destruct (Ascii.eqb c ".") eqn:Ec.
      * destruct (is_lf y) eqn:Ey; [discriminate |].
        rewrite (Utf8Facts.trail_app y a x b Hx) in H.
        rewrite Utf8Facts.drop_app in H by apply Utf8Facts.trail_le.
        destruct (Hlift _ H) as [Hl | (p1 & p2 & Hp & Hp2 & H1 & H2)]; [now left | right].
        exists (String c p1), p2. repeat split; try assumption.
        cbn [wild_strip]. rewrite Ec, Ey. exact H1.
      * destruct (Ascii.eqb c y) eqn:Ecy; [| discriminate].
        destruct (Hlift _ H) as [Hl | (p1 & p2 & Hp & Hp2 & H1 & H2)]; [now left | right].
        exists (String c p1), p2. repeat split; try assumption.
        cbn [wild_strip]. now rewrite Ec, Ecy.
Qed.

(** In a text of single-byte characters a match needs nothing of what
    follows the text. *)
Lemma wild_strip_within (q a b rest : string) :
  single_bytes a = true ->
  wild_strip q (a +:+ b) = Some rest -> String.length q <= String.length a ->
  exists ra, wild_strip q a = Some ra.
Proof.
  revert a. induction q as [|c q IH]; intros a Ha H Hlen; [now exists a |].
  destruct a as [|y a]; cbn [String.length] in Hlen; [lia |].
  cbn [single_bytes] in Ha. apply andb_prop in Ha as [Hy Ha].
  apply Nat.eqb_eq in Hy.
  rewrite StrFacts.append_cons in H. cbn [wild_strip] in H |- *.
  rewrite !Utf8Facts.trail_single in * by exact Hy. cbn [Str.drop] in *.
  destruct (Ascii.eqb c ".").
  - destruct (is_lf y); [discriminate |]. apply (IH a Ha H). lia.
  - destruct (Ascii.eqb c y); [| discriminate]. apply (IH a Ha H). lia.
Qed.

(** No match of an unbordered pattern starts inside a text that holds
    none, even when the pattern itself follows the text. *)
Lemma no_match_in_text (x0 : ascii) (p0 t x : string) :
  unbordered (String x0 p0) = true -> single_bytes (String x0 p0) = true ->
  utf8.continuation x0 = false ->
  t <> EmptyString -> wild_contains (String x0 p0) t = false ->
  wild_strip (String x0 p0) (t +:+ String x0 p0 +:+ x) = None.
Proof.
  intros Hu Hs Hx0 Ht Hc.
  destruct (wild_strip (String x0 p0) (t +:+ String x0 p0 +:+ x)) as [rest|] eqn:E;
    [exfalso | reflexivity].
  rewrite StrFacts.append_cons in E.
  apply wild_strip_app_inv in E as [(ra & E1 & _) | (p1 & p2 & Hp & Hp2 & E1 & E2)];
    [| | exact Hx0].
  - apply RegexpFacts.wild_prefix_Some, FilterFacts.wild_contains_here in E1. congruence.
  - rewrite <- StrFacts.append_cons in E2.
    assert (Hlen : String.length (String x0 p0) = String.length p1 + String.length p2)
      by (rewrite Hp; apply StrFacts.length_append).
    assert (Hp1 : String.length p1 <> 0).
    { destruct p1; [| discriminate]. cbn [wild_strip] in E1. congruence. }
    assert (Hp2' : String.length p2 <> 0) by (destruct p2; [congruence | discriminate]).
    apply wild_strip_within in E2 as [ra E2]; [| exact Hs | lia].
    apply RegexpFacts.wild_prefix_Some in E2.
    unfold unbordered in Hu. rewrite forallb_forall in Hu.
    specialize (Hu (String.length p1)).
    assert (Hd : Str.drop (String.length p1) (String x0 p0) = p2)
      by (rewrite Hp; apply StrFacts.drop_append).
    rewrite Hd, E2 in Hu.
    assert (Hin : In (String.length p1) (seq 1 (String.length (String x0 p0) - 1)))
      by (apply in_seq; lia).
    specialize (Hu Hin). discriminate.
Qed.

Lemma record_prefix_cons (x : string) :
  exists b, record_prefix +:+ x = String "T" b.
Proof. eexists. reflexivity. Qed.

Lemma no_match_before_record (t x : string) :
  t <> EmptyString -> wild_contains record_prefix t = false ->
  wild_strip record_prefix (t +:+ record_prefix +:+ x) = None.
Proof.
  exact (no_match_in_text "T" (Str.drop 1 record_prefix) t x
           (eq_refl : unbordered record_prefix = true)
           (eq_refl : single_bytes record_prefix = true) eq_refl).
Qed.

Lemma exec_no_match (s : string) :
  wild_strip record_prefix s = None -> exec (matchers !!! "hyperlink") s = None.
Proof. intros H. now rewrite hyperlink_matcher, RegexpFacts.exec_literal, H. Qed.

Lemma find_all_step (fuel : nat) (re : Regexp) (s rest : string) (caps : list string) :
  exec re s = Some (caps, rest) -> String.length rest < String.length s ->
  find_all (S fuel) re 0 s
  = (Str.take (String.length s - String.length rest) s :: caps) :: find_all fuel re 0 rest.
Proof.
  intros H Hlen. cbn [find_all]. rewrite H.
  destruct (String.length s - String.length rest) eqn:E; [lia | reflexivity].
Qed.

(** The search passes over the text in front of a record ... *)
Lemma find_all_skip_text (t x : string) (fuel skip : nat) :
  skip <= String.length t ->
  wild_contains record_prefix t = false ->
  String.length (t +:+ record_prefix +:+ x) < fuel ->
  find_all fuel (matchers !!! "hyperlink") skip (t +:+ record_prefix +:+ x)
  = find_all (fuel - String.length t) (matchers !!! "hyperlink") 0 (record_prefix +:+ x).
Proof.
  revert fuel skip. induction t as [|c t IH]; intros fuel skip Hskip Hc Hlen.
  - cbn [String.length] in Hskip. replace skip with 0 by lia.
    rewrite StrFacts.append_nil_l. cbn [String.length]. now rewrite Nat.sub_0_r.
  - destruct fuel as [|fuel]; [lia |].
    assert (Hno : exec (matchers !!! "hyperlink") (String c (t +:+ record_prefix +:+ x)) = None).
    { rewrite <- StrFacts.append_cons.
      apply exec_no_match, no_match_before_record; [discriminate | exact Hc]. }
    rewrite FilterFacts.wild_contains_cons in Hc. apply orb_false_elim in Hc as [_ Hc].
    rewrite StrFacts.append_cons in *. cbn [String.length] in *.
    destruct skip as [|skip]; cbn [find_all].
    + rewrite Hno. rewrite IH; [reflexivity | | exact Hc | lia].
      destruct (record_prefix_cons x) as [b ->].
      now apply Utf8Facts.trail_app_le.
    + rewrite IH; [reflexivity | lia | exact Hc | lia].
Qed.

(** ... and finds nothing in the text after the last one. *)
Lemma find_all_trailer (t : string) (fuel skip : nat) :
  wild_contains record_prefix t = false ->
  find_all fuel (matchers !!! "hyperlink") skip t = [].
Proof.
  revert fuel skip. induction t as [|c t IH]; intros [|fuel] [|skip] Hc; try reflexivity.
  - rewrite FilterFacts.wild_contains_cons in Hc. apply orb_false_elim in Hc as [Hp Hc].
    cbn [find_all]. rewrite exec_no_match by now apply RegexpFacts.wild_prefix_None.
    now apply IH.
  - rewrite FilterFacts.wild_contains_cons in Hc. apply orb_false_elim in Hc as [Hp Hc].
    cbn [find_all]. now apply IH.
Qed.

Lemma find_all_records (rs : list (string * string)) (trailer : string) (fuel : nat) :
  well_formed (mkManifest rs trailer) ->
  String.length (render_records rs trailer) < fuel ->
  find_all fuel (matchers !!! "hyperlink") 0 (render_records rs trailer)
  = map (fun r => [hyperlink_record r.2; r.2]) rs.
Proof.
  intros [Hrs Htr]. simpl in Hrs, Htr. revert fuel.
  induction Hrs as [|[text target] rs [Htext Htarget] _ IH]; intros fuel Hlen.
  - now apply find_all_trailer.
  - simpl in Htext, Htarget. cbn [render_records map snd] in *.
    set (rest := render_records rs trailer) in *.
    assert (Hassoc : hyperlink_record target +:+ rest
                     = record_prefix +:+ (target +:+ dq +:+ rest))
      by (unfold hyperlink_record; now rewrite !StrFacts.append_assoc).
    rewrite Hassoc in *. rewrite find_all_skip_text by (assumption || lia).
    rewrite <- Hassoc in *.
    rewrite !StrFacts.length_append in Hlen.
    destruct (fuel - String.length text) as [|fuel'] eqn:Ef; [lia |].
    rewrite (find_all_step fuel' _ _ rest [target]).
    + rewrite StrFacts.length_append, Nat.add_sub, StrFacts.take_append.
      rewrite IH; [reflexivity |].
      assert (String.length (hyperlink_record target) <> 0)
        by (unfold hyperlink_record; rewrite !StrFacts.length_append; simpl; lia).
      lia.
    + now apply exec_record.
    + rewrite StrFacts.length_append. unfold hyperlink_record.
      rewrite !StrFacts.length_append. simpl. lia.
Qed.

(** The links found in a well-formed manifest: the targets of its records
    in document order, less those the filter drops. *)
Lemma extractHyperlinksFromContent_render (m : Manifest) :
  well_formed m ->
  extractHyperlinksFromContent (render m)
  = filterHyperlinks (map (fun target => mkHyperlink target false) (targets m)).
Proof.
  intros Hwf. unfold extractHyperlinksFromContent, FindAllStringSubmatch, render, targets.
  destruct m as [rs text]. cbn [records trailer].
  rewrite find_all_records; [| exact Hwf | lia].
  now rewrite !map_map.
Qed.

End ExtractFacts.
Module ArchiveReadFacts.

Lemma for_fold_pure {A S} (body : S -> A -> Run S) (f : S -> A -> S)
    (xs : list A) (s : S) (w : World) :
  Forall (fun x => forall s w, body s x w = (Returned (f s x), w)) xs ->
  for_fold body xs s w = (Returned (fold_left f xs s), w).
Proof.
  intros H. revert s. induction H as [|x xs Hx _ IH]; intros s; [reflexivity |].
  cbn [for_fold fold_left]. rewrite (RunFacts.bind_eq _ _ _ _ _ (Hx s w)). apply IH.
Qed.

Lemma getLinkFileContent_read (env : Env) (document : Document)
    (container : ReadCloser) (matcher : regexp.Regexp) (w : World) :
  zip_OpenReader env (Path document) = Some container ->
  matchers !! Type_ document = Some matcher ->
  Forall (fun file => regexp.MatchString matcher (Name file) = true -> content file <> None)
         (File container) ->
  getLinkFileContent env document w
  = (Returned (manifest_text matcher (File container)), w).
Proof.
  intros Ho Hm Hfiles. unfold getLinkFileContent. rewrite Ho.
  rewrite bool_decide_false by discriminate.
  unfold when, bind at 1, ret at 1. unfold bind at 1. cbn [deref]. unfold ret at 1.
  apply for_fold_pure. eapply Forall_impl; [exact Hfiles |].
  intros file Hfile buffer w0. cbn beta in *. rewrite Hm.
  unfold bind at 1. cbn [deref]. unfold ret at 1.
  destruct (regexp.MatchString matcher (Name file)); [| reflexivity].
  destruct (content file) as [data |]; [reflexivity |].
  exfalso. now apply Hfile.
Qed.

Lemma manifest_text_none (matcher : regexp.Regexp) (files : list zipFile) :
  Forall (fun file => regexp.MatchString matcher (Name file) = false) files ->
  manifest_text matcher files = EmptyString.
Proof.
  intros H. unfold manifest_text. generalize EmptyString.
  induction H as [|file files Hfile _ IH]; intros buffer; [reflexivity |].
  cbn [fold_left]. rewrite Hfile. apply IH.
Qed.

End ArchiveReadFacts.

(** C9, as stated, fails: the manifest has one hyperlink record, with a
    mail address as target, and the extractor returns no link for it. *)
Lemma extractHyperlinksFromDocument_omits_mail_target :
  targets contact_manifest = ["mailto:info@example.org"]
  /\ zip_OpenReader one_contact "contact.docx"
     = Some (mkReadCloser
               [mkZipFile "word/_rels/document.xml.rels" (Some (render contact_manifest))])
  /\ extractHyperlinksFromDocument one_contact
       (mkDocument "contact.docx" ".docx" false []) start
     = (Returned [], start).
Proof. repeat split; vm_compute; reflexivity. Qed.

(** C9, amended. For a document whose archive opens, with the matcher of
    its kind: when the entries the matcher accepts can be read and their
    contents form a manifest of hyperlink records, the extractor returns,
    in document order, the targets of the records the link filter keeps,
    each as a link not yet probed; and when no entry is accepted by the
    matcher it returns the empty sequence and no error. *)
Theorem extractHyperlinksFromDocument_targets
    (env : Env) (document : Document) (container : ReadCloser)
    (matcher : regexp.Regexp) (w : World) :
  zip_OpenReader env (Path document) = Some container ->
  matchers !! Type_ document = Some matcher ->
  (forall m : Manifest,
      Forall (fun file =>
                regexp.MatchString matcher (Name file) = true -> content file <> None)
             (File container) ->
      manifest_text matcher (File container) = render m ->
      well_formed m ->
      extractHyperlinksFromDocument env document w
      = (Returned
           (filterHyperlinks (map (fun target => mkHyperlink target false) (targets m))),
         w))
  /\ (Forall (fun file => regexp.MatchString matcher (Name file) = false) (File container) ->
      extractHyperlinksFromDocument env document w = (Returned [], w)).
Proof.
  intros Ho Hm. split.
  - intros m Hread Htext Hwf. unfold extractHyperlinksFromDocument.
    rewrite (RunFacts.bind_eq _ _ _ _ _
               (ArchiveReadFacts.getLinkFileContent_read _ _ _ _ _ Ho Hm Hread)).
    unfold ret. now rewrite Htext, ExtractFacts.extractHyperlinksFromContent_render.
  - intros Hnone. unfold extractHyperlinksFromDocument.
    assert (Hread : Forall (fun file => regexp.MatchString matcher (Name file) = true ->
                                        content file <> None) (File container)).
    { eapply Forall_impl; [exact Hnone |]. intros file E1 E2. congruence. }
    rewrite (RunFacts.bind_eq _ _ _ _ _
               (ArchiveReadFacts.getLinkFileContent_read _ _ _ _ _ Ho Hm Hread)).
    now rewrite ArchiveReadFacts.manifest_text_none.
Qed.

Lemma extractHyperlinksFromDocument_targets_witness :
  extractHyperlinksFromDocument one_letter (mkDocument "letter.docx" ".docx" false []) start
  = (Returned [mkHyperlink "http://live.example/" false;
               mkHyperlink "http://gone.example/" false], start)
  /\ extractHyperlinksFromDocument one_letter (mkDocument "letter.docx" ".pptx" false []) start
     = (Returned [], start).
Proof.
  split.
  - refine (proj1 (extractHyperlinksFromDocument_targets one_letter
                     (mkDocument "letter.docx" ".docx" false []) letter_archive
                     (regexp.MustCompile "word/_rels/document.xml.rels") start _ _)
                  letter_manifest _ _ _).
    + reflexivity.
    + vm_compute. reflexivity.
    + repeat constructor; discriminate.
    + vm_compute. reflexivity.
    + repeat constructor; vm_compute; reflexivity.
  - refine (proj2 (extractHyperlinksFromDocument_targets one_letter
                     (mkDocument "letter.docx" ".pptx" false []) letter_archive
                     (regexp.MustCompile "ppt/slides/_rels/.*.xml.rels") start _ _) _).
    + reflexivity.
    + vm_compute. reflexivity.
    + repeat constructor; vm_compute; reflexivity.
Defined.

(** ** The exclusions are unanchored *)

(** C10, as stated, fails: the URL below is the text of the pattern with
    a line feed in the place of its first [.], and the filter keeps it. *)
Lemma filterHyperlinks_keeps_line_feed_instance :
  filterHyperlinks
    [mkHyperlink ("http://office" +:+ String regexp.line_feed "microsoft.com") false]
  = [mkHyperlink ("http://office" +:+ String regexp.line_feed "microsoft.com") false].
Proof. vm_compute. reflexivity. Qed.

(** C10, amended. The two exclusions are unanchored: a URL that contains,
    anywhere, a match of [http://office.microsoft.com] with each [.]
    standing for any one character other than a line feed, or that
    contains [mailto:] anywhere, is in no output of the filter, whatever
    the input sequence. *)
Theorem filterHyperlinks_unanchored (url : string) :
  (exists pre rest,
      url = pre +:+ rest /\ wild_prefix "http://office.microsoft.com" rest = true)
  \/ (exists pre post, url = pre +:+ "mailto:" +:+ post) ->
  forall (hyperlinks : list Hyperlink) (working : bool),
    ~ In (mkHyperlink url working) (filterHyperlinks hyperlinks).
Proof.
  intros Hurl.
  assert (Hdropped : dropped url = true).
  { unfold dropped. destruct Hurl as [(pre & rest & -> & Hi) | (pre & post & ->)].
    - rewrite FilterFacts.wild_contains_append; [now rewrite orb_true_r |].
      now apply FilterFacts.wild_contains_here.
    - rewrite StrFacts.contains_append. apply orb_true_r. }
  intros hyperlinks working Hin.
  rewrite FilterFacts.filterHyperlinks_filter in Hin.
  apply filter_In in Hin as [_ Hkeep].
  unfold keep in Hkeep. simpl Url in Hkeep. now rewrite Hdropped in Hkeep.
Qed.

(** An http URL whose query string contains [mailto:] is dropped, and so
    is a URL in which the vendor domain, with a two-byte character in the
    place of its first [.], follows other text. *)
Lemma filterHyperlinks_unanchored_witness :
  ~ In (mkHyperlink "http://x.y/?to=mailto:a@b.c" false)
       (filterHyperlinks [mkHyperlink "http://x.y/?to=mailto:a@b.c" false])
  /\ ~ In (mkHyperlink ("see http://office" +:+ e_acute +:+ "microsoft.com/") true)
          (filterHyperlinks
             [mkHyperlink ("see http://office" +:+ e_acute +:+ "microsoft.com/") true]).
Proof.
  split.
  - apply (filterHyperlinks_unanchored "http://x.y/?to=mailto:a@b.c").
    right. exists "http://x.y/?to=", "a@b.c". reflexivity.
  - apply (filterHyperlinks_unanchored
             ("see http://office" +:+ e_acute +:+ "microsoft.com/")).
    left. exists "see ", ("http://office" +:+ e_acute +:+ "microsoft.com/").
    split; reflexivity.
Defined.

(** * Further properties of the program *)

(** ** Which entries become documents *)

Module WalkFacts.

Lemma Ext_suffix (s : string) : exists base, s = base +:+ filepath_Ext s.
Proof.
  induction s as [|c s [base IH]]; [now exists EmptyString |].
  cbn [filepath_Ext]. destruct (has_char "/" s || has_char "." s).
  - exists (String c base). now rewrite StrFacts.append_cons, <- IH.
  - destruct (Ascii.eqb c "."); [now exists EmptyString |].
    exists (String c s). now rewrite StrFacts.append_nil_r.
Qed.

Lemma Ext_of_suffix (base x : string) :
  has_char "." x = false -> has_char "/" x = false ->
  filepath_Ext (base +:+ String "." x) = String "." x.
Proof.
  intros Hdot Hsep. induction base as [|c base IH].
  - rewrite StrFacts.append_nil_l. cbn [filepath_Ext].
    now rewrite Hdot, Hsep, Ascii.eqb_refl.
  - rewrite StrFacts.append_cons. cbn [filepath_Ext].
    rewrite (FilterFacts.has_char_append "." base), RegexpFacts.has_char_cons.
    rewrite Ascii.eqb_refl, orb_true_l, !orb_true_r. exact IH.
Qed.

Lemma Ext_is (s x : string) :
  has_char "." x = false -> has_char "/" x = false ->
  String.eqb (filepath_Ext s) (String "." x) = true <->
  exists base, s = base +:+ String "." x.
Proof.
  intros Hdot Hsep. rewrite String.eqb_eq. split.
  - intros <-. apply Ext_suffix.
  - intros [base ->]. now apply Ext_of_suffix.
Qed.

Lemma walkFn_info (call : WalkCall) (fileName : string) (w : World) :
  fileInfo call = Some fileName ->
  walkFn call w = (Returned (documents_found [call], None), w).
Proof.
  intros H. unfold walkFn, documents_found. cbn [flat_map]. rewrite H, app_nil_r.
  reflexivity.
Qed.

Lemma walkFn_nil (call : WalkCall) (w : World) :
  fileInfo call = None -> walkFn call w = (Panicked nil_dereference, w).
Proof. intros H. unfold walkFn. now rewrite H. Qed.

Lemma documents_found_cons (call : WalkCall) (calls : list WalkCall) :
  documents_found (call :: calls) = documents_found [call] ++ documents_found calls.
Proof. unfold documents_found. cbn [flat_map]. now rewrite app_nil_r. Qed.

(** The walk returns exactly when every invocation carries a file info. *)
Lemma Walk_Returned_iff (calls : list WalkCall) (w w' : World) (documents : list Document) :
  Walk calls w = (Returned documents, w') <->
  Forall (fun call => fileInfo call <> None) calls
  /\ documents = documents_found calls /\ w' = w.
Proof.
  revert documents w'. induction calls as [|call calls IH]; intros documents w'.
  - cbn [Walk]. unfold ret. split.
    + intros [= <- <-]. repeat split. constructor.
    + now intros (_ & -> & ->).
  - cbn [Walk]. destruct (fileInfo call) as [fileName |] eqn:Hinfo.
    + rewrite (RunFacts.bind_eq _ _ _ _ _ (walkFn_info call fileName w Hinfo)).
      cbn [fst snd]. rewrite (documents_found_cons call calls). split.
      * intros H. apply RunFacts.bind_Returned in H as (rest & w1 & Hrest & H).
        apply IH in Hrest as (Hall & -> & ->). unfold ret in H. injection H as <- <-.
        repeat split. constructor; [congruence | exact Hall].
      * intros (Hall & -> & ->). apply Forall_cons in Hall as [_ Hall].
        rewrite (RunFacts.bind_eq _ _ w w (documents_found calls)); [reflexivity |].
        now apply IH.
    + rewrite (RunFacts.bind_Panicked _ _ _ _ _ (walkFn_nil call w Hinfo)). split.
      * discriminate.
      * intros (Hall & _). apply Forall_cons in Hall as [Hcall _]. now contradiction Hcall.
Qed.

Lemma documents_found_fresh (calls : list WalkCall) :
  Forall (fun d => (Type_ d = ".docx" \/ Type_ d = ".pptx")
                   /\ IsValid d = false /\ Hyperlinks d = [])
         (documents_found calls).
Proof.
  induction calls as [|call calls IH]; [constructor |].
  rewrite documents_found_cons. apply Forall_app. split; [| exact IH].
  unfold documents_found. cbn [flat_map]. rewrite app_nil_r.
  destruct (fileInfo call) as [fileName |]; [| constructor].
  destruct (String.eqb (filepath_Ext fileName) ".docx") eqn:E1.
  - apply String.eqb_eq in E1. cbn [orb]. constructor; [| constructor].
    cbn. rewrite E1. auto.
  - destruct (String.eqb (filepath_Ext fileName) ".pptx") eqn:E2; [| constructor].
    apply String.eqb_eq in E2. cbn [orb]. constructor; [| constructor].
    cbn. rewrite E2. auto.
Qed.

End WalkFacts.

(** X1. An entry that comes with a file info is sent on as a document
    exactly when its name ends in [.docx] or [.pptx], letter for letter;
    the document then carries the entry's path and that extension, and
    the callback returns nil without touching the world. *)
Theorem walkFn_sends_by_suffix (call : WalkCall) (fileName : string) (w : World) :
  fileInfo call = Some fileName ->
  exists sent : list Document,
    walkFn call w = (Returned (sent, None), w)
    /\ ((exists base, fileName = base +:+ ".docx")
        -> sent = [mkDocument (path call) ".docx" false []])
    /\ ((exists base, fileName = base +:+ ".pptx")
        -> sent = [mkDocument (path call) ".pptx" false []])
    /\ (sent <> [] ->
        exists base, fileName = base +:+ ".docx" \/ fileName = base +:+ ".pptx").
Proof.
  intros Hinfo. eexists. split; [now apply (WalkFacts.walkFn_info call fileName) |].
  unfold documents_found. cbn [flat_map]. rewrite Hinfo, app_nil_r.
  assert (Hdocx := WalkFacts.Ext_is fileName "docx" eq_refl eq_refl).
  assert (Hpptx := WalkFacts.Ext_is fileName "pptx" eq_refl eq_refl).
  repeat split.
  - intros Hbase. apply Hdocx in Hbase. rewrite Hbase. cbn [orb].
    apply String.eqb_eq in Hbase. now rewrite Hbase.
  - intros Hbase. apply Hpptx in Hbase. rewrite Hbase, orb_true_r.
    apply String.eqb_eq in Hbase. now rewrite Hbase.
  - destruct (String.eqb (filepath_Ext fileName) ".docx") eqn:E1.
    + intros _. destruct (proj1 Hdocx eq_refl) as [base ->]. exists base. now left.
    + destruct (String.eqb (filepath_Ext fileName) ".pptx") eqn:E2; [| now intros []].
      intros _. destruct (proj1 Hpptx eq_refl) as [base ->]. exists base. now right.
Qed.

Lemma walkFn_sends_by_suffix_witness :
  exists sent : list Document,
    walkFn (mkWalkCall "docs/Plan.DOCX" (Some "Plan.DOCX") None) start
    = (Returned (sent, None), start)
    /\ ((exists base, "Plan.DOCX" = base +:+ ".docx")
        -> sent = [mkDocument "docs/Plan.DOCX" ".docx" false []])
    /\ ((exists base, "Plan.DOCX" = base +:+ ".pptx")
        -> sent = [mkDocument "docs/Plan.DOCX" ".pptx" false []])
    /\ (sent <> [] ->
        exists base, "Plan.DOCX" = base +:+ ".docx" \/ "Plan.DOCX" = base +:+ ".pptx").
Proof.
  apply (walkFn_sends_by_suffix (mkWalkCall "docs/Plan.DOCX" (Some "Plan.DOCX") None)
           "Plan.DOCX" start).
  reflexivity.
Defined.

(** X2. Whatever the walk returns are fresh documents of one of the two
    kinds: the type is [.docx] or [.pptx], so that its matcher is in
    [matchers], the validity flag is unset and there are no links yet; and
    the walk itself leaves the world as it was. *)
Theorem Walk_documents_have_matcher
    (calls : list WalkCall) (w w' : World) (documents : list Document) :
  Walk calls w = (Returned documents, w') ->
  w' = w
  /\ Forall (fun d => (Type_ d = ".docx" \/ Type_ d = ".pptx")
                      /\ is_Some (matchers !! Type_ d)
                      /\ IsValid d = false /\ Hyperlinks d = [])
            documents.
Proof.
  intros H. apply WalkFacts.Walk_Returned_iff in H as (_ & -> & ->).
  split; [reflexivity |].
  eapply Forall_impl; [apply WalkFacts.documents_found_fresh |].
  intros d ([-> | ->] & Hv & Hl); repeat split; auto; now eexists.
Qed.

Lemma Walk_documents_have_matcher_witness :
  (Walk (filepath_Walk one_letter ".") start).2 = start
  /\ Forall (fun d => (Type_ d = ".docx" \/ Type_ d = ".pptx")
                      /\ is_Some (matchers !! Type_ d)
                      /\ IsValid d = false /\ Hyperlinks d = [])
            [mkDocument "letter.docx" ".docx" false []].
Proof.
  apply (Walk_documents_have_matcher (filepath_Walk one_letter ".") start).
  reflexivity.
Defined.

(** ** What reading an archive comes to *)

Module ArchiveOutcome.

Lemma read_entries_Some (matcher : regexp.Regexp) (files : list zipFile)
    (buffer text : string) :
  read_entries matcher files buffer = Some text <->
  Forall (readable matcher) files
  /\ text = fold_left
              (fun buffer file =>
                 if regexp.MatchString matcher (Name file)
                 then buffer +:+ default EmptyString (content file)
                 else buffer)
              files buffer.
Proof.
  revert buffer. induction files as [|file files IH]; intros buffer.
  - cbn. split; [intros [= <-]; split; [constructor | reflexivity] | now intros [_ ->]].
  - cbn [read_entries fold_left]. unfold readable at 1.
    destruct (regexp.MatchString matcher (Name file)) eqn:E.
    + destruct (content file) as [data |] eqn:Ec.
      * rewrite IH. cbn [default]. split.
        -- intros [Hall ->]. split; [constructor; [unfold readable; congruence | exact Hall] |
                                     reflexivity].
        -- intros [Hall ->]. apply Forall_cons in Hall as [_ Hall]. now split.
      * split; [discriminate |]. intros [Hall _].
        apply Forall_cons in Hall as [Hfile _]. exfalso. now apply Hfile.
    + rewrite IH. split.
      * intros [Hall ->]. split; [constructor; [unfold readable; congruence | exact Hall] |
                                  reflexivity].
      * intros [Hall ->]. apply Forall_cons in Hall as [_ Hall]. now split.
Qed.

(** The loop over the entries of an opened archive. *)
Lemma loop_outcome (document : Document) (matcher : regexp.Regexp)
    (files : list zipFile) (buffer : string) (w : World) :
  matchers !! Type_ document = Some matcher ->
  for_fold
    (fun buffer file =>
       matcher <- deref (matchers !! Type_ document) ;;
       if regexp.MatchString matcher (Name file)
       then
         let fileContentReader := content file in
         let err := bool_decide (fileContentReader = None) in
         when err (log_Println "ERROR: coult not read file content") ;;
         data <- deref fileContentReader ;;
         let buffer := buffer +:+ data in
         when err (log_Println "could not write file contents to console") ;;
         ret buffer
       else ret buffer)
    files buffer w
  = match read_entries matcher files buffer with
    | Some text => (Returned text, w)
    | None => (Panicked nil_dereference, with_log "ERROR: coult not read file content" w)
    end.
Proof.
  intros Hm. revert buffer. induction files as [|file files IH]; intros buffer; [reflexivity |].
  cbn [for_fold read_entries].
  destruct (regexp.MatchString matcher (Name file)) eqn:E.
  - destruct (content file) as [data |] eqn:Ec.
    + rewrite (RunFacts.bind_eq _ _ w w (buffer +:+ data)); [apply IH |].
      cbn beta. rewrite Hm. unfold bind, deref, ret, when. now rewrite E.
    + apply RunFacts.bind_Panicked.
      cbn beta. rewrite Hm. unfold bind, deref, ret, when. now rewrite E.
  - rewrite (RunFacts.bind_eq _ _ w w buffer); [apply IH |].
    cbn beta. rewrite Hm. unfold bind, deref, ret. now rewrite E.
Qed.

Lemma getLinkFileContent_outcome (env : Env) (document : Document)
    (matcher : regexp.Regexp) (w : World) :
  matchers !! Type_ document = Some matcher ->
  getLinkFileContent env document w
  = match zip_OpenReader env (Path document) with
    | None => (Panicked nil_dereference, with_log "ERROR: could not open the file" w)
    | Some container =>
        match read_entries matcher (File container) EmptyString with
        | Some text => (Returned text, w)
        | None =>
            (Panicked nil_dereference, with_log "ERROR: coult not read file content" w)
        end
    end.
Proof.
  intros Hm. unfold getLinkFileContent.
  destruct (zip_OpenReader env (Path document)) as [container |]; [| reflexivity].
  rewrite bool_decide_false by discriminate.
  unfold when, bind at 1, ret at 1. unfold bind at 1. cbn [deref]. unfold ret at 1.
  now apply loop_outcome.
Qed.

End ArchiveOutcome.

(** X3. For a document of a kind [matchers] knows, reading the manifest
    returns exactly when the archive opens and every entry the kind's
    matcher accepts can be opened; it then returns the contents of those
    entries, concatenated in archive order, and leaves the world as it
    was. *)
Theorem getLinkFileContent_returns_iff (env : Env) (document : Document)
    (matcher : regexp.Regexp) (w w' : World) (text : string) :
  matchers !! Type_ document = Some matcher ->
  getLinkFileContent env document w = (Returned text, w') <->
  w' = w
  /\ exists container,
       zip_OpenReader env (Path document) = Some container
       /\ Forall (readable matcher) (File container)
       /\ text = manifest_text matcher (File container).
Proof.
  intros Hm. rewrite (ArchiveOutcome.getLinkFileContent_outcome _ _ _ _ Hm).
  destruct (zip_OpenReader env (Path document)) as [container |].
  - destruct (read_entries matcher (File container) EmptyString) as [text' |] eqn:E.
    + apply ArchiveOutcome.read_entries_Some in E as [Hall ->]. split.
      * intros [= <- <-]. split; [reflexivity |]. now exists container.
      * intros (-> & c & [= <-] & _ & ->). reflexivity.
    + split; [discriminate |]. intros (_ & c & [= <-] & Hall & ->).
      assert (H : read_entries matcher (File container) EmptyString
                  = Some (manifest_text matcher (File container)))
        by now apply ArchiveOutcome.read_entries_Some.
      congruence.
  - split; [discriminate |]. now intros (_ & c & [=] & _).
Qed.

Lemma getLinkFileContent_returns_iff_witness :
  getLinkFileContent one_letter (mkDocument "letter.docx" ".docx" false []) start
  = (Returned (render letter_manifest), start) <->
  start = start
  /\ exists container,
       zip_OpenReader one_letter "letter.docx" = Some container
       /\ Forall (readable (regexp.MustCompile "word/_rels/document.xml.rels"))
                 (File container)
       /\ render letter_manifest
          = manifest_text (regexp.MustCompile "word/_rels/document.xml.rels")
              (File container).
Proof.
  apply (getLinkFileContent_returns_iff one_letter
           (mkDocument "letter.docx" ".docx" false [])
           (regexp.MustCompile "word/_rels/document.xml.rels")).
  reflexivity.
Defined.

(** X4. For a document of a kind [matchers] knows, reading the manifest
    fails in one way only: a nil dereference, after exactly one line has
    been logged, "could not open the file" when the archive does not open
    and "coult not read file content" when an accepted entry cannot be
    opened.  Nothing is printed, no request is issued, and the third
    message of the function is never logged. *)
Theorem getLinkFileContent_panics_logged_once (env : Env) (document : Document)
    (matcher : regexp.Regexp) (w w' : World) (msg : string) :
  matchers !! Type_ document = Some matcher ->
  getLinkFileContent env document w = (Panicked msg, w') ->
  msg = nil_dereference
  /\ printed w' = printed w /\ requested w' = requested w
  /\ ((zip_OpenReader env (Path document) = None
       /\ logged w' = logged w ++ ["ERROR: could not open the file"])
      \/ (exists container,
             zip_OpenReader env (Path document) = Some container
             /\ ~ Forall (readable matcher) (File container)
             /\ logged w' = logged w ++ ["ERROR: coult not read file content"])).
Proof.
  intros Hm. rewrite (ArchiveOutcome.getLinkFileContent_outcome _ _ _ _ Hm).
  destruct (zip_OpenReader env (Path document)) as [container |].
  - destruct (read_entries matcher (File container) EmptyString) as [text |] eqn:E;
      [discriminate |].
    intros [= <- <-]. repeat split. right. exists container. repeat split.
    intros Hall.
    assert (H : read_entries matcher (File container) EmptyString
                = Some (manifest_text matcher (File container)))
      by now apply ArchiveOutcome.read_entries_Some.
    congruence.
  - intros [= <- <-]. repeat split. now left.
Qed.

Lemma getLinkFileContent_panics_logged_once_witness :
  nil_dereference = nil_dereference
  /\ printed (with_log "ERROR: could not open the file" start) = printed start
  /\ requested (with_log "ERROR: could not open the file" start) = requested start
  /\ ((zip_OpenReader with_corrupt_document "broken.docx" = None
       /\ logged (with_log "ERROR: could not open the file" start)
          = logged start ++ ["ERROR: could not open the file"])
      \/ (exists container,
             zip_OpenReader with_corrupt_document "broken.docx" = Some container
             /\ ~ Forall (readable (regexp.MustCompile "word/_rels/document.xml.rels"))
                         (File container)
             /\ logged (with_log "ERROR: could not open the file" start)
                = logged start ++ ["ERROR: coult not read file content"])).
Proof.
  apply (getLinkFileContent_panics_logged_once with_corrupt_document
           (mkDocument "broken.docx" ".docx" false [])
           (regexp.MustCompile "word/_rels/document.xml.rels") start).
  - reflexivity.
  - reflexivity.
Defined.

(** ** What the extractor can return *)

Module ExtractSound.
Import regexp.

Lemma lazy_inv (s acc rest : string) (skip : nat) (caps : list string) :
  utf8.continuations skip s = true ->
  lazy (exec [Lit quote]) skip acc s = Some (caps, rest) ->
  exists v, caps = [acc +:+ v]
            /\ has_char line_feed v = false
            /\ s = v +:+ String quote rest.
Proof.
  revert acc skip. induction s as [|e s IH]; intros acc skip Hskip;
    destruct skip as [|skip]; cbn [lazy exec]; try discriminate.
  - destruct (Ascii.eqb quote e) eqn:Eq.
    + apply Ascii.eqb_eq in Eq as <-. intros [= <- <-]. exists EmptyString.
      now rewrite StrFacts.append_nil_r.
    + destruct (is_lf e) eqn:El; [discriminate |]. intros H.
      apply IH in H as (v & -> & Hv & ->); [| apply Utf8Facts.trail_continuations].
      exists (String e v).
      unfold Str.snoc. rewrite StrFacts.append_assoc. repeat split.
      rewrite RegexpFacts.has_char_cons, Hv, orb_false_r.
      unfold is_lf in El. now rewrite Ascii.eqb_sym.
  - cbn [utf8.continuations] in Hskip. apply andb_prop in Hskip as [He Hskip].
    intros H. apply IH in H as (v & -> & Hv & ->); [| exact Hskip].
    exists (String e v).
    unfold Str.snoc. rewrite StrFacts.append_assoc. repeat split.
    rewrite RegexpFacts.has_char_cons, Hv, orb_false_r.
    destruct (Ascii.eqb line_feed e) eqn:El; [| reflexivity].
    rewrite Ascii.eqb_sym in El. apply Utf8Facts.continuation_lf in El. congruence.
Qed.

Lemma take_drop (n : nat) (s : string) : Str.take n s +:+ Str.drop n s = s.
Proof.
  revert s. induction n as [|n IH]; intros [|c s]; try reflexivity.
  cbn [Str.take Str.drop]. now rewrite StrFacts.append_cons, IH.
Qed.

(** What a match leaves is the end of the text. *)
Lemma wild_strip_consumed (p s rest : string) :
  wild_strip p s = Some rest -> exists x, s = x +:+ rest.
Proof.
  revert s. induction p as [|a p IH]; intros s H; cbn [wild_strip] in H.
  - exists EmptyString. rewrite StrFacts.append_nil_l. congruence.
  - destruct s as [|b s]; [discriminate |].
    destruct (Ascii.eqb a ".").
    + destruct (is_lf b); [discriminate |].
      apply IH in H as [x Hx].
      exists (String b (Str.take (utf8.trail b s) s +:+ x)).
      rewrite StrFacts.append_cons, StrFacts.append_assoc, <- Hx.
      now rewrite take_drop.
    + destruct (Ascii.eqb a b); [| discriminate].
      apply IH in H as [x ->]. now exists (String b x).
Qed.

(** A match of the hyperlink pattern at the start of [s]. *)
Lemma exec_hyperlink_inv (s rest : string) (caps : list string) :
  exec (matchers !!! "hyperlink") s = Some (caps, rest) ->
  exists u,
    caps = [u]
    /\ wild_strip record_prefix s = Some (u +:+ dq +:+ rest)
    /\ u <> EmptyString
    /\ has_char line_feed u = false.
Proof.
  rewrite ExtractFacts.hyperlink_matcher, RegexpFacts.exec_literal.
  destruct (wild_strip record_prefix s) as [[|d s'] |]; cbn [exec]; try discriminate.
  destruct (is_lf d) eqn:El; [discriminate |]. intros H.
  apply lazy_inv in H as (v & -> & Hv & ->); [| apply Utf8Facts.trail_continuations].
  exists (String d v). repeat split.
  - discriminate.
  - rewrite RegexpFacts.has_char_cons, Hv, orb_false_r.
    unfold is_lf in El. now rewrite Ascii.eqb_sym.
Qed.

Lemma target_in_append (u x s : string) : target_in u s -> target_in u (x +:+ s).
Proof.
  intros (pre & rest & post & -> & Hp). exists (x +:+ pre), rest, post.
  now rewrite StrFacts.append_assoc.
Qed.

Lemma find_all_sound (fuel skip : nat) (s : string) :
  Forall (fun m => exists whole u,
              m = [whole; u] /\ u <> EmptyString
              /\ has_char line_feed u = false /\ target_in u s)
         (find_all fuel (matchers !!! "hyperlink") skip s).
Proof.
  revert skip s. induction fuel as [|fuel IH]; intros skip s; [constructor |].
  cbn [find_all].
  assert (Hcons : forall c s' k, s = String c s' ->
            Forall (fun m => exists whole u,
                        m = [whole; u] /\ u <> EmptyString
                        /\ has_char line_feed u = false /\ target_in u s)
                   (find_all fuel (matchers !!! "hyperlink") k s')).
  { intros c s' k ->. eapply Forall_impl; [apply (IH k s') |].
    intros m (whole & u & -> & Hne & Hlf & Hin). exists whole, u. repeat split; auto.
    now apply (target_in_append u (String c EmptyString) s'). }
  destruct skip as [|skip].
  - destruct (exec (matchers !!! "hyperlink") s) as [[caps rest] |] eqn:E.
    + apply exec_hyperlink_inv in E as (u & -> & Hs & Hne & Hlf).
      constructor.
      * eexists _, u. repeat split; auto. exists EmptyString, s, rest. now split.
      * destruct (String.length s - String.length rest) as [|n] eqn:En;
          [destruct s as [|c s'] |].
        -- constructor.
        -- now apply (Hcons c s').
        -- eapply Forall_impl; [apply (IH 0 rest) |].
           intros m (whole & u' & -> & Hne' & Hlf' & Hin). exists whole, u'.
           repeat split; auto.
           destruct (wild_strip_consumed _ _ _ Hs) as [x ->].
           replace (x +:+ u +:+ dq +:+ rest) with ((x +:+ u +:+ dq) +:+ rest)
             by (now rewrite !StrFacts.append_assoc).
           now apply target_in_append.
    + destruct s as [|c s']; [constructor | now apply (Hcons c s')].
  - destruct s as [|c s']; [constructor | now apply (Hcons c s')].
Qed.

(** A record whose target is empty: the group takes the closing quote as
    its first character and runs on to the next quote. *)
Lemma exec_empty_target (v rest : string) :
  has_char quote v = false -> has_char line_feed v = false ->
  exec (matchers !!! "hyperlink") (record_prefix +:+ dq +:+ v +:+ dq +:+ rest)
  = Some ([dq +:+ v], rest).
Proof.
  intros Hq Hlf. rewrite ExtractFacts.hyperlink_matcher, RegexpFacts.exec_literal.
  rewrite ExtractFacts.wild_strip_self.
  unfold dq at 1. rewrite StrFacts.append_cons.
  rewrite StrFacts.append_nil_l. cbn [exec].
  replace (is_lf quote) with false by (vm_compute; reflexivity).
  rewrite Utf8Facts.trail_single by reflexivity.
  unfold dq at 1. rewrite StrFacts.append_cons, StrFacts.append_nil_l.
  rewrite ExtractFacts.lazy_until_quote; [reflexivity | assumption | assumption | lia].
Qed.

(** The links of a manifest text, all at once. *)
Lemma extracted_links (fileContent : string) :
  Forall (fun link => IsWorking link = false
                      /\ keep link = true
                      /\ target_in (Url link) fileContent)
         (extractHyperlinksFromContent fileContent).
Proof.
  unfold extractHyperlinksFromContent. rewrite FilterFacts.filterHyperlinks_filter.
  apply Forall_forall. intros link Hin. apply list_elem_of_In, filter_In in Hin as [Hin Hkeep].
  apply in_map_iff in Hin as (m & <- & Hm).
  pose proof (find_all_sound (S (String.length fileContent)) 0 fileContent) as Hall.
  rewrite Forall_forall in Hall. apply list_elem_of_In in Hm.
  destruct (Hall m Hm) as (whole & u & -> & _ & _ & Htarget).
  change ([whole; u] !!! 1%nat) with u in *. now repeat split.
Qed.

End ExtractSound.

(** X5. The extractor returns nothing that is not in the text: every link
    it returns is unprobed, and its URL is not empty, has no line feed, is
    one the filter keeps, and stands in the manifest text right after a
    match of the record's fixed part and right before a double quote. *)
Theorem extractHyperlinksFromContent_sound (fileContent : string) (link : Hyperlink) :
  In link (extractHyperlinksFromContent fileContent) ->
  IsWorking link = false
  /\ Url link <> EmptyString
  /\ has_char regexp.line_feed (Url link) = false
  /\ dropped (Url link) = false
  /\ target_in (Url link) fileContent.
Proof.
  unfold extractHyperlinksFromContent. rewrite FilterFacts.filterHyperlinks_filter.
  intros Hin. apply filter_In in Hin as [Hin Hkeep].
  apply in_map_iff in Hin as (m & <- & Hm).
  pose proof (ExtractSound.find_all_sound
                (S (String.length fileContent)) 0 fileContent) as Hall.
  rewrite Forall_forall in Hall. apply list_elem_of_In in Hm.
  destruct (Hall m Hm) as (whole & u & -> & Hne & Hlf & Htarget).
  change ([whole; u] !!! 1%nat) with u in *. cbn [IsWorking Url].
  repeat split; auto. now apply negb_true_iff in Hkeep.
Qed.

Lemma extractHyperlinksFromContent_sound_witness :
  let link := mkHyperlink "http://gone.example/" false in
  IsWorking link = false
  /\ Url link <> EmptyString
  /\ has_char regexp.line_feed (Url link) = false
  /\ dropped (Url link) = false
  /\ target_in (Url link) (render letter_manifest).
Proof.
  apply (extractHyperlinksFromContent_sound (render letter_manifest)
           (mkHyperlink "http://gone.example/" false)).
  vm_compute. right. left. reflexivity.
Defined.

(** X6. A hyperlink record with an empty target is not passed over: with
    no match of the record's fixed part in the text around it, the
    extractor takes the closing quote of the empty target and all that
    follows up to the next double quote on the line as the URL of a link,
    which is returned unless the filter drops it. *)
Theorem extractHyperlinksFromContent_empty_target (text v trailer : string) :
  wild_contains record_prefix text = false ->
  has_char quote v = false ->
  has_char regexp.line_feed v = false ->
  wild_contains record_prefix trailer = false ->
  extractHyperlinksFromContent
    (text +:+ hyperlink_record EmptyString +:+ v +:+ dq +:+ trailer)
  = filterHyperlinks [mkHyperlink (dq +:+ v) false].
Proof.
  intros Htext Hq Hlf Htrailer.
  unfold extractHyperlinksFromContent, regexp.FindAllStringSubmatch.
  replace (text +:+ hyperlink_record EmptyString +:+ v +:+ dq +:+ trailer)
    with (text +:+ record_prefix +:+ dq +:+ v +:+ dq +:+ trailer)
    by (unfold hyperlink_record; now rewrite !StrFacts.append_assoc).
  rewrite ExtractFacts.find_all_skip_text; [| lia | exact Htext | lia].
  rewrite StrFacts.length_append.
  replace (S (String.length text
              + String.length (record_prefix +:+ dq +:+ v +:+ dq +:+ trailer))
           - String.length text)
    with (S (String.length (record_prefix +:+ dq +:+ v +:+ dq +:+ trailer))) by lia.
  rewrite (ExtractFacts.find_all_step _ _ _ trailer [dq +:+ v]).
  - now rewrite ExtractFacts.find_all_trailer.
  - now apply ExtractSound.exec_empty_target.
  - rewrite !StrFacts.length_append. cbn. lia.
Qed.

Lemma extractHyperlinksFromContent_empty_target_witness :
  extractHyperlinksFromContent
    ("<Relationship Id=r1 " +:+ hyperlink_record EmptyString
     +:+ " TargetMode=" +:+ dq +:+ "External" +:+ dq +:+ "/>")
  = filterHyperlinks [mkHyperlink (dq +:+ " TargetMode=") false].
Proof.
  apply (extractHyperlinksFromContent_empty_target
           "<Relationship Id=r1 " " TargetMode=" ("External" +:+ dq +:+ "/>"));
    vm_compute; reflexivity.
Defined.

(** ** What a whole run comes to *)

Module RunOutcome.

Lemma world_eta (w : World) : mkWorld (logged w) (printed w) (requested w) = w.
Proof. now destruct w. Qed.

Lemma probe_one (env : Env) (link : Hyperlink) (w : World) :
  (fmt_Println ("-- checking link: " +:+ Url link) ;; validate env link) w
  = (Returned (probed env link),
     mkWorld (logged w) (printed w ++ [checking_line link])
             (requested w ++ [request_for link])).
Proof.
  unfold probed, request_for, checking_line.
  cbv beta iota delta [bind fmt_Println validate Do ret logged printed requested].
  destruct (bool_decide (goreq_Do env (mkRequest (Url link) (15000 * Millisecond)) <> None));
    reflexivity.
Qed.

(** Probing the links of a document one after the other. *)
Lemma probe_all (env : Env) (links : list Hyperlink) (w : World) :
  for_each
    (fun link => fmt_Println ("-- checking link: " +:+ Url link) ;; validate env link)
    links w
  = (Returned (map (probed env) links),
     mkWorld (logged w) (printed w ++ map checking_line links)
             (requested w ++ map request_for links)).
Proof.
  revert w. induction links as [|link links IH]; intros w.
  - cbn. unfold ret. now rewrite !app_nil_r, world_eta.
  - cbn [for_each map]. rewrite (RunFacts.bind_eq _ _ _ _ _ (probe_one env link w)).
    rewrite (RunFacts.bind_eq _ _ _ _ _ (IH _)). unfold ret.
    cbn [logged printed requested]. now rewrite <- !app_assoc.
Qed.

Lemma probed_lines (env : Env) (links : list Hyperlink) :
  map checking_line (map (probed env) links) = map checking_line links.
Proof. now rewrite map_map. Qed.

Lemma probed_requests (env : Env) (links : list Hyperlink) :
  map request_for (map (probed env) links) = map request_for links.
Proof. now rewrite map_map. Qed.

(** The document's archive opens: what was gathered from it. *)
Lemma opens_read (env : Env) (document : Document) (matcher : regexp.Regexp) :
  matchers !! Type_ document = Some matcher ->
  opens env document <->
  exists container,
    zip_OpenReader env (Path document) = Some container
    /\ read_entries matcher (File container) EmptyString = Some (gathered env document).
Proof.
  intros Hm. unfold opens, gathered. rewrite Hm. split.
  - intros (container & m & Ho & [= <-] & Hall). exists container. rewrite Ho.
    split; [reflexivity |]. now apply ArchiveOutcome.read_entries_Some.
  - intros (container & Ho & Hread). rewrite Ho in Hread.
    apply ArchiveOutcome.read_entries_Some in Hread as [Hall _].
    now exists container, matcher.
Qed.

(** Checking one document. *)
Lemma check_one_iff (env : Env) (document document' : Document)
    (matcher : regexp.Regexp) (w w' : World) :
  matchers !! Type_ document = Some matcher ->
  extractAndCheckHyperlinks env document w = (Returned document', w') <->
  opens env document
  /\ document' = checked env document
  /\ w' = mkWorld (logged w)
            (printed w ++ map checking_line (Hyperlinks (checked env document)))
            (requested w ++ map request_for (Hyperlinks (checked env document))).
Proof.
  intros Hm. rewrite (opens_read env document matcher Hm).
  unfold extractAndCheckHyperlinks, extractHyperlinksFromDocument.
  cbn [checked Hyperlinks]. rewrite probed_lines, probed_requests.
  assert (Hget := ArchiveOutcome.getLinkFileContent_outcome env document matcher w Hm).
  destruct (zip_OpenReader env (Path document)) as [container |] eqn:Ho.
  - destruct (read_entries matcher (File container) EmptyString) as [text |] eqn:Hr.
    + rewrite (RunFacts.bind_eq _ _ w w (extractHyperlinksFromContent text)).
      2:{ now rewrite (RunFacts.bind_eq _ _ _ _ _ Hget). }
      rewrite (RunFacts.bind_eq _ _ _ _ _ (probe_all env _ w)). unfold ret.
      assert (Htext : gathered env document = text).
      { unfold gathered. rewrite Ho, Hm.
        now apply ArchiveOutcome.read_entries_Some in Hr as [_ ->]. }
      unfold checked. rewrite Htext. split.
      * intros [= <- <-]. split; [now exists container | now split].
      * now intros (_ & -> & ->).
    + rewrite (RunFacts.bind_Panicked _ _ w
                 (with_log "ERROR: coult not read file content" w) nil_dereference).
      2:{ now rewrite (RunFacts.bind_Panicked _ _ _ _ _ Hget). }
      split; [discriminate |]. intros ((c & [= <-] & Hc) & _). congruence.
  - rewrite (RunFacts.bind_Panicked _ _ w
               (with_log "ERROR: could not open the file" w) nil_dereference).
    2:{ now rewrite (RunFacts.bind_Panicked _ _ _ _ _ Hget). }
    split; [discriminate |]. now intros ((c & [=] & _) & _).
Qed.

(** Checking the documents of the walk one after the other. *)
Lemma check_all_iff (env : Env) (files documents : list Document) (w w' : World) :
  Forall (fun d => is_Some (matchers !! Type_ d)) files ->
  for_each (extractAndCheckHyperlinks env) files w = (Returned documents, w') <->
  Forall (opens env) files
  /\ documents = map (checked env) files
  /\ w' = mkWorld (logged w)
            (printed w
               ++ flat_map (fun d => map checking_line (Hyperlinks d))
                    (map (checked env) files))
            (requested w
               ++ flat_map (fun d => map request_for (Hyperlinks d))
                    (map (checked env) files)).
Proof.
  intros Hfiles. revert documents w w'.
  induction Hfiles as [|file files [matcher Hm] _ IH]; intros documents w w'.
  - cbn. unfold ret. rewrite !app_nil_r, world_eta. split.
    + intros [= <- <-]. repeat split. constructor.
    + now intros (_ & -> & ->).
  - cbn [for_each map flat_map]. split.
    + intros H. apply RunFacts.bind_Returned in H as (d1 & w1 & H1 & H).
      apply RunFacts.bind_Returned in H as (ds & w2 & H2 & H).
      unfold ret in H. injection H as <- <-.
      apply (check_one_iff env file d1 matcher w w1 Hm) in H1 as (Hopen & -> & ->).
      apply IH in H2 as (Hall & -> & ->). cbn [logged printed requested].
      rewrite <- !app_assoc. repeat split. now constructor.
    + intros (Hall & -> & ->). apply Forall_cons in Hall as [Hopen Hall].
      erewrite RunFacts.bind_eq.
      2:{ apply (check_one_iff env file _ matcher w _ Hm). repeat split. exact Hopen. }
      erewrite RunFacts.bind_eq.
      2:{ apply IH. repeat split. exact Hall. }
      unfold ret. cbn [logged printed requested]. now rewrite <- !app_assoc.
Qed.

Lemma found_have_matcher (calls : list WalkCall) :
  Forall (fun d => is_Some (matchers !! Type_ d)) (documents_found calls).
Proof.
  eapply Forall_impl; [apply WalkFacts.documents_found_fresh |].
  intros d ([-> | ->] & _); now eexists.
Qed.

(** A run returns exactly in a healthy environment, and then with the
    report and the world read off the environment. *)
Lemma main_Returned_iff (env : Env) (w w' : World) (report : Report) :
  main env w = (Returned report, w') <->
  healthy env /\ report = report_of env /\ w' = world_after env w.
Proof.
  unfold main, getAndCheckFilesInDirectory, walkDirectory, healthy, report_of, world_after.
  set (calls := filepath_Walk env ".").
  set (w0 := mkWorld (logged w) (printed w ++ ["Checking documents. Please wait .."])
               (requested w)).
  assert (Hprint : fmt_Println "Checking documents. Please wait .." w = (Returned tt, w0))
    by reflexivity.
  rewrite (RunFacts.bind_eq _ _ _ _ _ Hprint). cbn zeta.
  assert (Hreport : forall documents,
            mkReport
              (if negb (Bool.eqb (check_documents documents true).2 false)
               then true else (check_documents documents true).2)
              ["."] (check_documents documents true).1 [] (Str.take 19 (time_Now env))
            = mkReport (forallb all_working documents) ["."] (map marked documents) []
                (Str.take 19 (time_Now env))).
  { intros documents.
    rewrite AggregationFacts.check_documents_result,
      AggregationFacts.check_documents_documents.
    cbn [andb]. now destruct (forallb all_working documents). }
  split.
  - intros H. apply RunFacts.bind_Returned in H as (documents & w1 & H & Hret).
    unfold ret in Hret. injection Hret as <- <-.
    apply RunFacts.bind_Returned in H as (files & w2 & Hwalk & H).
    apply WalkFacts.Walk_Returned_iff in Hwalk as (Hinfo & -> & ->).
    apply RunFacts.bind_Returned in H as (checked_documents & w3 & Hcheck & H).
    apply (check_all_iff env _ _ _ _ (found_have_matcher calls)) in Hcheck
      as (Hopen & -> & ->).
    apply RunFacts.bind_Returned in H as ([] & w4 & Hdone & H).
    unfold ret in H. injection H as <- <-. unfold fmt_Println in Hdone.
    injection Hdone as <-. cbn [logged printed requested].
    rewrite Hreport, <- !app_assoc. repeat split; assumption.
  - intros ((Hinfo & Hopen) & -> & ->).
    erewrite RunFacts.bind_eq.
    2:{ rewrite (RunFacts.bind_eq _ _ w0 w0 (documents_found calls)).
        2:{ now apply WalkFacts.Walk_Returned_iff. }
        erewrite RunFacts.bind_eq.
        2:{ apply (check_all_iff env _ _ _ _ (found_have_matcher calls)).
            repeat split. exact Hopen. }
        unfold fmt_Println, bind, ret. cbn [logged printed requested].
        reflexivity. }
    unfold ret. rewrite Hreport. subst w0. cbn [logged printed requested].
    now rewrite <- !app_assoc.
Qed.

End RunOutcome.

(** X7. A run returns a report exactly when the environment is healthy:
    every invocation of the walk callback carries a file info, and every
    entry named .docx or .pptx opens as an archive whose manifest entries
    can be read.  In every other environment the run ends in a panic. *)
Theorem main_returns_iff_healthy (env : Env) (w : World) :
  (exists report w', main env w = (Returned report, w')) <-> healthy env.
Proof.
  split.
  - intros (report & w' & H). now apply RunOutcome.main_Returned_iff in H.
  - intros H. exists (report_of env), (world_after env w).
    now apply RunOutcome.main_Returned_iff.
Qed.

(** X8. The report of a run that returns is read off the environment
    alone: one document per entry named .docx or .pptx, in the order of
    the walk, each with the links extracted from its manifest text and
    probed, flagged valid when all of them work; the overall flag is the
    conjunction over the documents, the directory list is the current
    directory and the date the first 19 characters of the clock. *)
Theorem main_report_of_environment (env : Env) (w w' : World) (report : Report) :
  main env w = (Returned report, w') -> report = report_of env.
Proof. intros H. now apply RunOutcome.main_Returned_iff in H. Qed.

Lemma main_report_of_environment_witness : letter_report = report_of one_letter.
Proof.
  apply (main_report_of_environment one_letter start letter_world letter_report).
  vm_compute. reflexivity.
Defined.

(** X9. A run that returns has issued one request per link of its
    report, for the URL of the link and with the fixed timeout: the
    requests come in one block per document, the blocks in the order of
    the report, and the block of a document holds the requests for its
    links, each as often as the link occurs, in some order. *)
Theorem main_one_request_per_link (env : Env) (w w' : World) (report : Report) :
  main env w = (Returned report, w') ->
  exists blocks : list (list Request),
    requested w' = requested w ++ concat blocks
    /\ Forall2 (fun document block =>
                  Permutation block (map request_for (Hyperlinks document)))
               (Documents report) blocks.
Proof.
  intros H. apply RunOutcome.main_Returned_iff in H as (_ & -> & ->).
  unfold report_of, world_after. cbn [requested Documents].
  set (documents := map (checked env) (documents_found (filepath_Walk env "."))).
  exists (map (fun document => map request_for (Hyperlinks document)) documents).
  split.
  - f_equal. induction documents as [|d ds IH]; [reflexivity |].
    cbn [map flat_map concat]. now rewrite IH.
  - induction documents as [|d ds IH]; constructor; [reflexivity | exact IH].
Qed.

Lemma main_one_request_per_link_witness :
  exists blocks : list (list Request),
    requested letter_world = requested start ++ concat blocks
    /\ Forall2 (fun document block =>
                  Permutation block (map request_for (Hyperlinks document)))
               (Documents letter_report) blocks.
Proof.
  apply (main_one_request_per_link one_letter start letter_world letter_report).
  vm_compute. reflexivity.
Defined.

(** X10. In the report of a run, a link is marked working exactly when the
    fetch of its URL returned no error. *)
Theorem main_link_status (env : Env) (w w' : World) (report : Report)
    (document : Document) (link : Hyperlink) :
  main env w = (Returned report, w') ->
  In document (Documents report) ->
  In link (Hyperlinks document) ->
  IsWorking link = true <-> goreq_Do env (request_for link) = None.
Proof.
  intros H Hd Hl. apply RunOutcome.main_Returned_iff in H as (_ & -> & _).
  unfold report_of in Hd. cbn [Documents] in Hd.
  apply in_map_iff in Hd as (d & <- & Hd). apply in_map_iff in Hd as (d0 & <- & _).
  cbn [marked checked Hyperlinks] in Hl. apply in_map_iff in Hl as (l0 & <- & _).
  unfold probed. cbn [IsWorking]. change (request_for _) with (request_for l0).
  destruct (goreq_Do env (request_for l0)) as [e |].
  - rewrite bool_decide_true by discriminate. split; discriminate.
  - rewrite bool_decide_false by (intros Hne; now apply Hne). now split.
Qed.

Lemma main_link_status_witness :
  IsWorking (mkHyperlink "http://gone.example/" false) = true <->
  goreq_Do one_letter (request_for (mkHyperlink "http://gone.example/" false)) = None.
Proof.
  apply (main_link_status one_letter start letter_world letter_report
           (mkDocument "letter.docx" ".docx" false
              [mkHyperlink "http://live.example/" true;
               mkHyperlink "http://gone.example/" false])).
  - vm_compute. reflexivity.
  - left. reflexivity.
  - right. left. reflexivity.
Defined.

(** X11. Gathering and checking the documents logs nothing when it
    returns: every error logged on the way is followed by a panic. *)
Theorem getAndCheckFilesInDirectory_returns_without_log
    (env : Env) (rootDirectory : string) (w w' : World) (documents : list Document) :
  getAndCheckFilesInDirectory env rootDirectory w = (Returned documents, w') ->
  logged w' = logged w.
Proof.
  unfold getAndCheckFilesInDirectory, walkDirectory. intros H.
  apply RunFacts.bind_Returned in H as (files & w1 & Hwalk & H).
  apply WalkFacts.Walk_Returned_iff in Hwalk as (_ & -> & ->).
  apply RunFacts.bind_Returned in H as (checked_documents & w2 & Hcheck & H).
  apply (RunOutcome.check_all_iff env _ _ _ _ (RunOutcome.found_have_matcher _)) in Hcheck
    as (_ & -> & ->).
  apply RunFacts.bind_Returned in H as ([] & w3 & Hdone & H).
  unfold ret in H. injection H as _ <-. unfold fmt_Println in Hdone.
  now injection Hdone as <-.
Qed.

Lemma getAndCheckFilesInDirectory_returns_without_log_witness :
  logged (getAndCheckFilesInDirectory one_letter "." start).2 = logged start.
Proof.
  apply (getAndCheckFilesInDirectory_returns_without_log one_letter "." start
           (getAndCheckFilesInDirectory one_letter "." start).2
           [mkDocument "letter.docx" ".docx" false
              [mkHyperlink "http://live.example/" true;
               mkHyperlink "http://gone.example/" false]]).
  vm_compute. reflexivity.
Defined.

(** X12. Every link in the report of a run comes from the manifest of its
    document and has passed the filter: its URL stands in the manifest
    text of the document between a match of the record's fixed part and a
    double quote, and it is not empty, not a vendor link and contains no
    [mailto:]. *)
Theorem main_links_from_manifest (env : Env) (w w' : World) (report : Report)
    (document : Document) (link : Hyperlink) :
  main env w = (Returned report, w') ->
  In document (Documents report) ->
  In link (Hyperlinks document) ->
  dropped (Url link) = false /\ target_in (Url link) (gathered env document).
Proof.
  intros H Hd Hl. apply RunOutcome.main_Returned_iff in H as (_ & -> & _).
  unfold report_of in Hd. cbn [Documents] in Hd.
  apply in_map_iff in Hd as (d & <- & Hd). apply in_map_iff in Hd as (d0 & <- & _).
  cbn [marked checked Hyperlinks] in Hl. apply in_map_iff in Hl as (l0 & <- & Hl0).
  change (gathered env (marked (checked env d0))) with (gathered env d0).
  pose proof (ExtractSound.extracted_links (gathered env d0)) as Hall.
  rewrite Forall_forall in Hall. apply list_elem_of_In in Hl0.
  destruct (Hall l0 Hl0) as (_ & Hkeep & Htarget). cbn [probed Url].
  split; [now apply negb_true_iff in Hkeep | exact Htarget].
Qed.

Lemma main_links_from_manifest_witness :
  dropped "http://gone.example/" = false
  /\ target_in "http://gone.example/"
       (gathered one_letter
          (mkDocument "letter.docx" ".docx" false
             [mkHyperlink "http://live.example/" true;
              mkHyperlink "http://gone.example/" false])).
Proof.
  apply (main_links_from_manifest one_letter start letter_world letter_report
           (mkDocument "letter.docx" ".docx" false
              [mkHyperlink "http://live.example/" true;
               mkHyperlink "http://gone.example/" false])
           (mkHyperlink "http://gone.example/" false)).
  - vm_compute. reflexivity.
  - left. reflexivity.
  - right. left. reflexivity.
Defined.

(** X13. For a run from the initial world that returns, the overall flag
    of the report is true exactly when none of the requests the run issued
    came back with an error. *)
Theorem main_valid_iff_all_fetched (env : Env) (w' : World) (report : Report) :
  main env start = (Returned report, w') ->
  ResultOfValidation report = true <->
  forall request, In request (requested w') -> goreq_Do env request = None.
Proof.
  intros H. apply RunOutcome.main_Returned_iff in H as (_ & -> & ->).
  unfold report_of, world_after. cbn [ResultOfValidation requested start app].
  set (found := documents_found (filepath_Walk env ".")).
  assert (Hstatus : forall l0,
            IsWorking (probed env l0) = true <-> goreq_Do env (request_for l0) = None).
  { intros l0. unfold probed. cbn [IsWorking].
    destruct (goreq_Do env (request_for l0)) as [e |].
    - rewrite bool_decide_true by discriminate. split; discriminate.
    - rewrite bool_decide_false by (intros Hne; now apply Hne). now split. }
  rewrite forallb_forall. split.
  - intros Hall request Hin. apply in_flat_map in Hin as (d & Hd & Hin).
    apply in_map_iff in Hin as (link & <- & Hl). specialize (Hall d Hd).
    unfold all_working in Hall. rewrite forallb_forall in Hall. specialize (Hall link Hl).
    apply in_map_iff in Hd as (d0 & <- & _). cbn [checked Hyperlinks] in Hl.
    apply in_map_iff in Hl as (l0 & <- & _). now apply Hstatus.
  - intros Hall d Hd. unfold all_working. rewrite forallb_forall. intros link Hl.
    assert (Hreq : goreq_Do env (request_for link) = None).
    { apply Hall, in_flat_map. exists d. split; [exact Hd |]. now apply in_map. }
    apply in_map_iff in Hd as (d0 & <- & _). cbn [checked Hyperlinks] in Hl.
    apply in_map_iff in Hl as (l0 & <- & _). now apply Hstatus.
Qed.

Lemma main_valid_iff_all_fetched_witness :
  ResultOfValidation letter_report = true <->
  forall request, In request (requested letter_world) -> goreq_Do one_letter request = None.
Proof.
  apply (main_valid_iff_all_fetched one_letter letter_world letter_report).
  vm_compute. reflexivity.
Defined.

(** X14. The report of a run lists one document for every entry named
    .docx or .pptx that the walk came across, in the order of the walk and
    under the path and type the walk gave it, whether or not any link was
    found in it. *)
Theorem main_documents_follow_walk (env : Env) (w w' : World) (report : Report) :
  main env w = (Returned report, w') ->
  map Path (Documents report) = map Path (documents_found (filepath_Walk env "."))
  /\ map Type_ (Documents report) = map Type_ (documents_found (filepath_Walk env ".")).
Proof.
  intros H. apply RunOutcome.main_Returned_iff in H as (_ & -> & _).
  unfold report_of. cbn [Documents]. now rewrite !map_map.
Qed.

Lemma main_documents_follow_walk_witness :
  map Path (Documents letter_report)
  = map Path (documents_found (filepath_Walk one_letter "."))
  /\ map Type_ (Documents letter_report)
     = map Type_ (documents_found (filepath_Walk one_letter ".")).
Proof.
  apply (main_documents_follow_walk one_letter start letter_world letter_report).
  vm_compute. reflexivity.
Defined.

(** X15. Over a directory in which no entry is named .docx or .pptx the
    run returns a valid report without documents, and up to that report
    it has issued no request. *)
Theorem main_without_documents (env : Env) (w : World) :
  Forall (fun call => fileInfo call <> None) (filepath_Walk env ".") ->
  documents_found (filepath_Walk env ".") = [] ->
  exists w',
    main env w = (Returned (mkReport true ["."] [] [] (Str.take 19 (time_Now env))), w')
    /\ requested w' = requested w.
Proof.
  intros Hinfo Hnone. exists (world_after env w). split.
  - apply RunOutcome.main_Returned_iff.
    unfold healthy, report_of. rewrite Hnone. cbn.
    repeat split; [exact Hinfo | constructor].
  - unfold world_after. rewrite Hnone. cbn. apply app_nil_r.
Qed.

Lemma main_without_documents_witness :
  exists w',
    main no_documents start
    = (Returned (mkReport true ["."] [] [] (Str.take 19 (time_Now no_documents))), w')
    /\ requested w' = requested start.
Proof.
  apply (main_without_documents no_documents start).
  - repeat constructor; discriminate.
  - reflexivity.
Defined.

(** X16. In the report of a run the overall flag is true exactly when
    every document of the report is flagged valid. *)
Theorem main_valid_iff_documents_valid (env : Env) (w w' : World) (report : Report) :
  main env w = (Returned report, w') ->
  ResultOfValidation report = true <->
  forall document, In document (Documents report) -> IsValid document = true.
Proof.
  intros H. apply RunOutcome.main_Returned_iff in H as (_ & -> & _).
  unfold report_of. cbn [ResultOfValidation Documents]. rewrite forallb_forall. split.
  - intros Hall document Hd. apply in_map_iff in Hd as (d & <- & Hd). now apply Hall.
  - intros Hall d Hd. apply (Hall (marked d)). now apply in_map.
Qed.

Lemma main_valid_iff_documents_valid_witness :
  ResultOfValidation letter_report = true <->
  forall document, In document (Documents letter_report) -> IsValid document = true.
Proof.
  apply (main_valid_iff_documents_valid one_letter start letter_world letter_report).
  vm_compute. reflexivity.
Defined.

(** ** The filter over concatenated sequences *)

(** X17. Filtering a concatenation is concatenating the filtered parts:
    whether a link is kept does not depend on the links around it. *)
Theorem filterHyperlinks_app (xs ys : list Hyperlink) :
  filterHyperlinks (xs ++ ys) = filterHyperlinks xs ++ filterHyperlinks ys.
Proof.
  unfold filterHyperlinks. rewrite fold_left_app, !FilterFacts.loop_invariant.
  now rewrite app_nil_l.
Qed.

(** ** Absolute paths *)

(** X18. When [filepath.Abs] returns absolute paths, as it is documented
    to, [getAbsoluteFilePath] returns an absolute path whenever the given
    path is absolute or [filepath.Abs] succeeds on it, and applying it a
    second time changes nothing, also where [filepath.Abs] fails. *)
Theorem getAbsoluteFilePath_idempotent
    (filepath_Abs : string -> string * option string) (path : string) :
  (forall p, (filepath_Abs p).2 = None -> filepath_IsAbs (filepath_Abs p).1 = true) ->
  getAbsoluteFilePath filepath_Abs (getAbsoluteFilePath filepath_Abs path)
  = getAbsoluteFilePath filepath_Abs path
  /\ (filepath_IsAbs path = true \/ (filepath_Abs path).2 = None ->
      filepath_IsAbs (getAbsoluteFilePath filepath_Abs path) = true).
Proof.
  intros Habs. unfold getAbsoluteFilePath.
  destruct (filepath_IsAbs path) eqn:Hp.
  - rewrite Hp. now split.
  - destruct (filepath_Abs path) as [absolutePath [e |]] eqn:Ha; cbn [fst snd].
    + rewrite bool_decide_true by discriminate. rewrite Hp, Ha. cbn [fst snd].
      rewrite bool_decide_true by discriminate. split; [reflexivity |].
      intros [H | H]; discriminate.
    + rewrite bool_decide_false by (intros Hne; now apply Hne).
      assert (Hres : filepath_IsAbs absolutePath = true).
      { specialize (Habs path). rewrite Ha in Habs. now apply Habs. }
      rewrite Hres. now split.
Qed.

Lemma getAbsoluteFilePath_idempotent_witness :
  let filepath_Abs := fun p : string => ("/home/user/" +:+ p, @None string) in
  getAbsoluteFilePath filepath_Abs (getAbsoluteFilePath filepath_Abs "letter.docx")
  = getAbsoluteFilePath filepath_Abs "letter.docx"
  /\ (filepath_IsAbs "letter.docx" = true \/ (filepath_Abs "letter.docx").2 = None ->
      filepath_IsAbs (getAbsoluteFilePath filepath_Abs "letter.docx") = true).
Proof.
  intros filepath_Abs.
  apply (getAbsoluteFilePath_idempotent filepath_Abs "letter.docx").
  intros p _. reflexivity.
Defined.

(** ** Which archive entries are read *)

Module MatcherFacts.

(** A match somewhere in [s], as a match at the start of an end piece
    of [s]. *)
Lemma wild_contains_iff (p s : string) :
  wild_contains p s = true <->
  exists pre rest, s = pre +:+ rest /\ wild_prefix p rest = true.
Proof.
  split.
  - induction s as [|c s IH].
    + cbn [wild_contains]. intros H. exists EmptyString, EmptyString.
      split; [reflexivity |]. now destruct (wild_prefix p EmptyString).
    + rewrite FilterFacts.wild_contains_cons. intros H.
      apply orb_true_iff in H as [H | H].
      * now exists EmptyString, (String c s).
      * destruct (IH H) as (pre & rest & -> & Hp). now exists (String c pre), rest.
  - intros (pre & rest & -> & H).
    now apply FilterFacts.wild_contains_append, FilterFacts.wild_contains_here.
Qed.

End MatcherFacts.

(** X19. The manifest entry of a .docx is chosen by an unanchored match
    whose dots are wildcards: an entry is read exactly when, somewhere in
    its name, there begins a text that agrees with
    [word/_rels/document.xml.rels] everywhere but at its two dots, where
    any one character other than a line feed may stand. *)
Theorem docx_entry_selection (name : string) :
  regexp.MatchString (matchers !!! ".docx") name = true <->
  exists pre rest,
    name = pre +:+ rest /\ wild_prefix "word/_rels/document.xml.rels" rest = true.
Proof.
  change (matchers !!! ".docx") with (literal "word/_rels/document.xml.rels").
  rewrite RegexpFacts.MatchString_literal by reflexivity.
  apply MatcherFacts.wild_contains_iff.
Qed.

(** X21. A manifest text without a match of the record's fixed part, the
    empty text among them, yields no links. *)
Theorem extractHyperlinksFromContent_no_record (fileContent : string) :
  wild_contains record_prefix fileContent = false ->
  extractHyperlinksFromContent fileContent = [].
Proof.
  intros H. unfold extractHyperlinksFromContent, regexp.FindAllStringSubmatch.
  now rewrite ExtractFacts.find_all_trailer.
Qed.

Lemma extractHyperlinksFromContent_no_record_witness :
  extractHyperlinksFromContent "<Relationships/>" = [].
Proof.
  apply (extractHyperlinksFromContent_no_record "<Relationships/>").
  vm_compute. reflexivity.
Defined.
